(** * A shallow embedding of the Telegram-Bot wrapper

    Sources: [telegram_utils/config.py], [telegram_utils/main.py],
    [telegram_utils/errors.py] and the single-file variant
    [telegram_bot.py].  Both variants share [Config] verbatim; they differ
    in [add_client] and in [get_message] / [handle_msg].

    Model overview.
    - Python values that reach the config file or the predicates are
      [pyval]; a Python [dict] is an insertion-ordered association list
      whose keys are compared with Python [==] ([py_key_eq]).
    - Python exceptions are [pyexc]; an operation runs in the state and
      exception monad [ST S A := S -> result A * S]: effects made before
      an exception are kept, as in Python.  [Pending] is the outcome of a
      call that never returns (a listening session that has not accepted
      a message).
    - The file system is a list of entries (regular file or directory)
      indexed by paths given as lists of components; [open] walks the
      ancestors like POSIX does.
    - The [pickle] module (standard library, not part of the repository)
      is modelled at the level of its opcode stream: a file holds a list
      of opcodes, the unpickler is a stack machine, an unknown byte is
      [OP_INVALID], and running out of input raises [EOFError].
    - The chat transport (python-telegram-bot, external) is a log of
      calls; a send to a chat listed as unreachable raises
      [TelegramError].  Inbound updates are a queue the polling loop
      consumes. *)

From Stdlib Require Import ZArith List String Ascii Bool Lia.
Import ListNotations.
Open Scope Z_scope.
Set Warnings "-register-all".

(** ** Python values *)

Inductive pyval : Type :=
| PNone
| PBool (b : bool)
| PInt (z : Z)
| PStr (s : string)
| PDict (items : list (pyval * pyval)).

(** Python [==] on hashable values; [True == 1] and [False == 0]. *)
Definition py_key_eq (a b : pyval) : bool :=
  match a, b with
  | PNone, PNone => true
  | PBool x, PBool y => Bool.eqb x y
  | PInt x, PInt y => Z.eqb x y
  | PInt x, PBool y => Z.eqb x (Z.b2z y)
  | PBool x, PInt y => Z.eqb (Z.b2z x) y
  | PStr x, PStr y => String.eqb x y
  | _, _ => false
  end.

Definition py_hashable (v : pyval) : bool :=
  match v with PDict _ => false | _ => true end.

(** Python truthiness, [bool(v)]. *)
Definition py_truthy (v : pyval) : bool :=
  match v with
  | PNone => false
  | PBool b => b
  | PInt z => negb (Z.eqb z 0)
  | PStr s => negb (String.eqb s EmptyString)
  | PDict d => match d with [] => false | _ => true end
  end.

(** [v is False]: [False] is a singleton object; no other value is it. *)
Definition py_is_False (v : pyval) : bool :=
  match v with PBool false => true | _ => false end.

(** ** Dictionaries *)

Definition dict := list (pyval * pyval).

Fixpoint dict_lookup (d : dict) (k : pyval) : option pyval :=
  match d with
  | [] => None
  | (k', v) :: d' => if py_key_eq k k' then Some v else dict_lookup d' k
  end.

(** [d[k] = v]: an existing key keeps its slot (and its key object). *)
Fixpoint dict_set (d : dict) (k v : pyval) : dict :=
  match d with
  | [] => [(k, v)]
  | (k', v') :: d' =>
      if py_key_eq k k' then (k', v) :: d' else (k', v') :: dict_set d' k v
  end.

(** [d.update(other)] for a dict [other]. *)
Definition dict_update (d other : dict) : dict :=
  fold_left (fun acc kv => dict_set acc (fst kv) (snd kv)) other d.

(** [d.get(k)] *)
Definition dict_get (d : dict) (k : pyval) : pyval :=
  match dict_lookup d k with Some v => v | None => PNone end.

(** Keys pairwise distinct, as in every dict Python builds. *)
Fixpoint keys_distinct (d : dict) : bool :=
  match d with
  | [] => true
  | (k, _) :: d' =>
      forallb (fun kv => negb (py_key_eq k (fst kv))) d' && keys_distinct d'
  end.

(** ** Exceptions and the state/exception monad *)

Inductive pyexc : Type :=
| ConfigError | NoTokenError | NoClientIdsError
| FileNotFoundError | FileExistsError | NotADirectoryError | IsADirectoryError
| EOFError | UnpicklingError | AttributeError | TypeError
| TelegramError.

Inductive result (A : Type) : Type :=
| Ok (a : A)
| Err (e : pyexc)
| Pending.
Arguments Ok {A} a.
Arguments Err {A} e.
Arguments Pending {A}.

Definition ST (S A : Type) : Type := S -> result A * S.

Definition ret {S A} (a : A) : ST S A := fun s => (Ok a, s).
Definition raise {S A} (e : pyexc) : ST S A := fun s => (Err e, s).
Definition bind {S A B} (m : ST S A) (k : A -> ST S B) : ST S B :=
  fun s => match m s with
           | (Ok a, s') => k a s'
           | (Err e, s') => (Err e, s')
           | (Pending, s') => (Pending, s')
           end.
Definition get {S} : ST S S := fun s => (Ok s, s).
Definition put {S} (s : S) : ST S unit := fun _ => (Ok tt, s).

Notation "x <- m ;; k" := (bind m (fun x => k))
  (at level 61, m at next level, right associativity).
Notation "m ;;; k" := (bind m (fun _ => k))
  (at level 61, right associativity).

(** ** The [pickle] module, at the level of its opcode stream *)

Inductive opcode : Type :=
| OP_NONE | OP_NEWTRUE | OP_NEWFALSE
| OP_BININT (z : Z)
| OP_UNICODE (s : string)
| OP_EMPTY_DICT
| OP_SETITEM
| OP_STOP
| OP_INVALID (byte : Z).

(** The contents of a file. *)
Definition bytes := list opcode.

Fixpoint pickle_val (v : pyval) : bytes :=
  match v with
  | PNone => [OP_NONE]
  | PBool true => [OP_NEWTRUE]
  | PBool false => [OP_NEWFALSE]
  | PInt z => [OP_BININT z]
  | PStr s => [OP_UNICODE s]
  | PDict d =>
      OP_EMPTY_DICT
        :: flat_map (fun '(k, x) => pickle_val k ++ pickle_val x ++ [OP_SETITEM]) d
  end.

(** [pickle.dumps(v)] *)
Definition pickle_dumps (v : pyval) : bytes := pickle_val v ++ [OP_STOP].

(** The unpickler's main loop: reading an opcode past the end of the input
    raises [EOFError] ("Ran out of input"); a malformed stream raises
    [UnpicklingError]; [SETITEM] on a non-dict or with an unhashable key
    raises [TypeError]. *)
Fixpoint unpickle_run (ops : bytes) (stack : list pyval) : result pyval :=
  match ops with
  | [] => Err EOFError
  | op :: rest =>
      match op with
      | OP_NONE => unpickle_run rest (PNone :: stack)
      | OP_NEWTRUE => unpickle_run rest (PBool true :: stack)
      | OP_NEWFALSE => unpickle_run rest (PBool false :: stack)
      | OP_BININT z => unpickle_run rest (PInt z :: stack)
      | OP_UNICODE s => unpickle_run rest (PStr s :: stack)
      | OP_EMPTY_DICT => unpickle_run rest (PDict [] :: stack)
      | OP_SETITEM =>
          match stack with
          | v :: k :: PDict d :: stk =>
              if py_hashable k then unpickle_run rest (PDict (dict_set d k v) :: stk)
              else Err TypeError
          | _ :: _ :: _ :: _ => Err TypeError
          | _ => Err UnpicklingError
          end
      | OP_STOP =>
          match stack with
          | v :: _ => Ok v
          | [] => Err UnpicklingError
          end
      | OP_INVALID _ => Err UnpicklingError
      end
  end.

(** [pickle.load(f)] *)
Definition pickle_load (b : bytes) : result pyval := unpickle_run b [].

(** ** The file system *)

Definition path := list string.

Inductive entry : Type :=
| File (contents : bytes)
| Dir.

Definition fs := list (path * entry).

Fixpoint path_eqb (p q : path) : bool :=
  match p, q with
  | [], [] => true
  | a :: p', b :: q' => String.eqb a b && path_eqb p' q'
  | _, _ => false
  end.

Fixpoint fs_lookup (f : fs) (p : path) : option entry :=
  match f with
  | [] => None
  | (q, e) :: f' => if path_eqb p q then Some e else fs_lookup f' p
  end.

Definition fs_set (f : fs) (p : path) (e : entry) : fs := (p, e) :: f.

(** Path resolution of the proper ancestors of a path (relative paths,
    resolved from the current directory, which exists). *)
Fixpoint resolve_parents (f : fs) (acc : path) (rest : list string) : result unit :=
  match rest with
  | [] | [_] => Ok tt
  | c :: rest' =>
      match fs_lookup f (acc ++ [c]) with
      | None => Err FileNotFoundError
      | Some (File _) => Err NotADirectoryError
      | Some Dir => resolve_parents f (acc ++ [c]) rest'
      end
  end.

(** [open(p, "rb").read()] *)
Definition open_read (f : fs) (p : path) : result bytes :=
  match resolve_parents f [] p with
  | Ok _ =>
      match fs_lookup f p with
      | None => Err FileNotFoundError
      | Some Dir => Err IsADirectoryError
      | Some (File b) => Ok b
      end
  | Err e => Err e
  | Pending => Pending
  end.

(** [with open(p, "wb") as h: h.write(b)] *)
Definition open_write (b : bytes) (p : path) : ST fs unit :=
  fun f =>
    match resolve_parents f [] p with
    | Ok _ =>
        match fs_lookup f p with
        | Some Dir => (Err IsADirectoryError, f)
        | _ => (Ok tt, fs_set f p (File b))
        end
    | Err e => (Err e, f)
    | Pending => (Pending, f)
    end.

Fixpoint makedirs_walk (acc : path) (rest : list string) : ST fs unit :=
  fun f =>
    match rest with
    | [] => (Ok tt, f)
    | [c] =>
        match fs_lookup f (acc ++ [c]) with
        | None => (Ok tt, fs_set f (acc ++ [c]) Dir)
        | Some _ => (Err FileExistsError, f)
        end
    | c :: rest' =>
        match fs_lookup f (acc ++ [c]) with
        | None => makedirs_walk (acc ++ [c]) rest' (fs_set f (acc ++ [c]) Dir)
        | Some Dir => makedirs_walk (acc ++ [c]) rest' f
        | Some (File _) => (Err NotADirectoryError, f)
        end
    end.

(** [os.makedirs(d)]; [d = []] is the current directory, which exists. *)
Definition makedirs (d : path) : ST fs unit :=
  match d with
  | [] => raise FileExistsError
  | _ => makedirs_walk [] d
  end.

(** [Path(p).parent] *)
Definition parent (p : path) : path := removelast p.

(** ** [Config] (config.py; the same class in telegram_bot.py) *)

Record config : Type := mk_config {
  filepath : path;
  token : pyval;
  client_ids : pyval
}.

(** [{"token": self.token, "client_ids": self.client_ids}] *)
Definition config_dict (c : config) : pyval :=
  PDict [(PStr "token", token c); (PStr "client_ids", client_ids c)].

(** [Config.__init__(filepath)]: the [try] covers [open], [pickle.load]
    and the two [.get] calls; only [FileNotFoundError] and
    [pickle.UnpicklingError] are caught. *)
Definition config_load (f : fs) (p : path) : result config :=
  match open_read f p with
  | Ok b =>
      match pickle_load b with
      | Ok (PDict d) =>
          Ok (mk_config p (dict_get d (PStr "token")) (dict_get d (PStr "client_ids")))
      | Ok _ => Err AttributeError
      | Err UnpicklingError => Err ConfigError
      | Err e => Err e
      | Pending => Pending
      end
  | Err FileNotFoundError => Ok (mk_config p PNone (PDict []))
  | Err e => Err e
  | Pending => Pending
  end.

(** [Config.write_config()]: on [FileNotFoundError] create the parent
    directories and write again. *)
Definition write_config (c : config) : ST fs unit :=
  let data := pickle_dumps (config_dict c) in
  fun f =>
    match open_write data (filepath c) f with
    | (Err FileNotFoundError, f1) =>
        (makedirs (parent (filepath c)) ;;; open_write data (filepath c)) f1
    | r => r
    end.

(** ** The bot's world *)

(** A [telegram.Message] as the handlers use it. *)
Record message : Type := mk_message {
  chat_id : Z;
  chat_full_name : string;
  text : string
}.

(** Calls made on the chat transport, in order. *)
Inductive tcall : Type :=
| SendMessage (chat : pyval) (text : string) (parse_mode : option string)
    (delivered : bool)
| ReplyText (chat : Z) (text : string).

Record state : Type := mk_state {
  st_config : config;           (** [self.config] *)
  st_fs : fs;
  st_calls : list tcall;        (** transport calls made so far *)
  st_unreachable : list pyval;  (** chats the transport refuses *)
  st_inbox : list message;      (** updates the poller will fetch *)
  st_chat_data : dict;          (** [dispatcher.chat_data] of the session *)
  st_sigterm : bool;            (** SIGTERM raised in the session *)
  st_rand : nat -> Z;           (** raw random draws of [random] *)
  st_rpos : nat;                (** draws consumed so far *)
  st_input : string             (** the line [input()] returns *)
}.

Definition set_config (s : state) (c : config) : state :=
  mk_state c (st_fs s) (st_calls s) (st_unreachable s) (st_inbox s)
    (st_chat_data s) (st_sigterm s) (st_rand s) (st_rpos s) (st_input s).
Definition set_fs (s : state) (f : fs) : state :=
  mk_state (st_config s) f (st_calls s) (st_unreachable s) (st_inbox s)
    (st_chat_data s) (st_sigterm s) (st_rand s) (st_rpos s) (st_input s).
Definition add_call (s : state) (c : tcall) : state :=
  mk_state (st_config s) (st_fs s) (st_calls s ++ [c]) (st_unreachable s)
    (st_inbox s) (st_chat_data s) (st_sigterm s) (st_rand s) (st_rpos s)
    (st_input s).
Definition set_inbox (s : state) (i : list message) : state :=
  mk_state (st_config s) (st_fs s) (st_calls s) (st_unreachable s) i
    (st_chat_data s) (st_sigterm s) (st_rand s) (st_rpos s) (st_input s).
Definition set_session (s : state) (cd : dict) (sig : bool) : state :=
  mk_state (st_config s) (st_fs s) (st_calls s) (st_unreachable s)
    (st_inbox s) cd sig (st_rand s) (st_rpos s) (st_input s).
Definition set_rpos (s : state) (n : nat) : state :=
  mk_state (st_config s) (st_fs s) (st_calls s) (st_unreachable s)
    (st_inbox s) (st_chat_data s) (st_sigterm s) (st_rand s) n (st_input s).

Definition with_token (c : config) (t : pyval) : config :=
  mk_config (filepath c) t (client_ids c).
Definition with_client_ids (c : config) (v : pyval) : config :=
  mk_config (filepath c) (token c) v.

Definition on_fs {A} (m : ST fs A) : ST state A :=
  fun s => let (r, f') := m (st_fs s) in (r, set_fs s f').

Definition lift_result {S A} (r : result A) : ST S A :=
  fun s => (r, s).

(** [self.config.write_config()] *)
Definition write_config_st : ST state unit :=
  s <- get ;; on_fs (write_config (st_config s)).

(** ** [TelegramBot] (telegram_utils/main.py and telegram_bot.py) *)

(** [set_bot_token(token)]: [token or input(...)], then persist. *)
Definition set_bot_token (tok : pyval) : ST state unit :=
  s <- get ;;
  let t := if py_truthy tok then tok else PStr (st_input s) in
  put (set_config s (with_token (st_config s) t)) ;;;
  write_config_st.

(** [self.config.client_ids.update(client)] *)
Definition update_client_ids (client : dict) : ST state unit :=
  s <- get ;;
  match client_ids (st_config s) with
  | PDict d => put (set_config s (with_client_ids (st_config s) (PDict (dict_update d client))))
  | _ => raise AttributeError
  end.

(** [add_client(client)] of telegram_utils/main.py *)
Definition add_client_main (client : dict) : ST state unit :=
  update_client_ids client ;;; write_config_st.

(** [update.message.reply_text(t)] *)
Definition reply_text (m : message) (t : string) : ST state unit :=
  fun s => (Ok tt, add_call s (ReplyText (chat_id m) t)).

(** [context.chat_data.update(msg=update.message.text)]; [chat_data] is a
    [defaultdict(dict)] keyed by chat id. *)
Definition chat_data_update (m : message) : ST state unit :=
  fun s =>
    let cd := st_chat_data s in
    let inner := match dict_lookup cd (PInt (chat_id m)) with
                 | Some (PDict i) => i
                 | _ => []
                 end in
    (Ok tt, set_session s (dict_set cd (PInt (chat_id m))
                             (PDict (dict_set inner (PStr "msg") (PStr (text m)))))
              (st_sigterm s)).

(** [signal.raise_signal(signal.SIGTERM)] *)
Definition raise_sigterm : ST state unit :=
  fun s => (Ok tt, set_session s (st_chat_data s) true).

(** [handle_msg] of telegram_utils/main.py; [f] is the decorated
    predicate. *)
Definition handle_msg_main (f : message -> ST state pyval) (m : message)
  : ST state bool :=
  chat_data_update m ;;;
  res <- f m ;;
  if py_is_False res then
    reply_text m "Invalid!" ;;; ret false
  else
    reply_text m "Accepted." ;;; raise_sigterm ;;; ret true.

(** [k in container] *)
Definition py_in (k container : pyval) : result bool :=
  match container with
  | PDict d => Ok (match dict_lookup d k with Some _ => true | None => false end)
  | _ => Err TypeError
  end.

(** [handle_msg] of telegram_bot.py: messages from chats outside the
    registry are dropped before the predicate runs. *)
Definition handle_msg_bot (f : message -> ST state pyval) (m : message)
  : ST state bool :=
  s <- get ;;
  known <- lift_result (py_in (PInt (chat_id m)) (client_ids (st_config s))) ;;
  if negb known then ret false else handle_msg_main f m.

(** [updater.start_polling(); updater.idle([SIGTERM])]: every fetched
    update goes to the handler; the dispatcher ignores the handler's
    return value and logs its exceptions; the loop stops once SIGTERM has
    been raised, and otherwise keeps polling for ever ([Pending]). *)
Fixpoint poll (fuel : nat) (handler : message -> ST state bool) : ST state unit :=
  fun s =>
    match fuel with
    | O => (Pending, s)
    | S fuel' =>
        match st_inbox s with
        | [] => (Pending, s)
        | m :: rest =>
            let (_, s1) := handler m (set_inbox s rest) in
            if st_sigterm s1 then (Ok tt, s1) else poll fuel' handler s1
        end
    end.

(** [wrapper()]: one session with a fresh dispatcher; returns
    [dispatcher.chat_data]. *)
Definition listen_session (handler : message -> ST state bool) : ST state dict :=
  fun s =>
    let s0 := set_session s [] false in
    (poll (List.length (st_inbox s0)) handler ;;;
     s1 <- get ;; ret (st_chat_data s1)) s0.

(** [get_message(f)] of telegram_utils/main.py: returns the wrapper. *)
Definition get_message_main (f : message -> ST state pyval)
  : ST state (ST state dict) :=
  s <- get ;;
  if negb (py_truthy (token (st_config s))) then raise NoTokenError
  else ret (listen_session (handle_msg_main f)).

(** [get_message(f)] of telegram_bot.py. *)
Definition get_message_bot (f : message -> ST state pyval)
  : ST state (ST state dict) :=
  s <- get ;;
  if negb (py_truthy (token (st_config s))) then raise NoTokenError
  else if negb (py_truthy (client_ids (st_config s))) then raise NoClientIdsError
  else ret (listen_session (handle_msg_bot f)).

(** [str(n)] for an [int]. *)
Fixpoint decimal_digits (fuel : nat) (n : Z) (acc : string) : string :=
  let acc' := String (ascii_of_nat (48 + Z.to_nat (n mod 10))) acc in
  match fuel with
  | O => acc'
  | S fuel' => if n <? 10 then acc' else decimal_digits fuel' (n / 10) acc'
  end.

Definition py_str_int (z : Z) : string :=
  let fuel := Z.to_nat (Z.log2 (Z.abs z)) in
  if z <? 0 then String "-"%char (decimal_digits fuel (- z) EmptyString)
  else decimal_digits fuel z EmptyString.

(** [random.randint(a, b)] = [a + _randbelow(b - a + 1)]: one draw from the
    generator, reduced into the range. *)
Definition randint (a b : Z) : ST state Z :=
  fun s => (Ok (a + st_rand s (st_rpos s) mod (b - a + 1)), set_rpos s (S (st_rpos s))).

(** [[str(randint(0, 9)) for _ in range(n)]] *)
Fixpoint draw_digits (n : nat) : ST state (list string) :=
  match n with
  | O => ret []
  | S n' => d <- randint 0 9 ;; ds <- draw_digits n' ;; ret (py_str_int d :: ds)
  end.

(** [password = "".join([str(randint(0, 9)) for _ in range(8)])] *)
Definition gen_password : ST state string :=
  ds <- draw_digits 8 ;; ret (String.concat "" ds).

(** [handle_passwd] of the registration flow (both variants). *)
Definition handle_passwd (password : string) (m : message) : ST state pyval :=
  if String.eqb (text m) password then
    update_client_ids [(PInt (chat_id m), PStr (chat_full_name m))] ;;;
    write_config_st ;;;
    ret (PBool true)
  else ret (PBool false).

(** [register_client()] of telegram_utils/main.py (the operator log line
    is not modelled). *)
Definition register_client_main : ST state unit :=
  password <- gen_password ;;
  wrapper <- get_message_main (handle_passwd password) ;;
  wrapper ;;; ret tt.

(** [__register_client()] of telegram_bot.py *)
Definition register_client_bot : ST state unit :=
  password <- gen_password ;;
  wrapper <- get_message_bot (handle_passwd password) ;;
  wrapper ;;; ret tt.

(** [add_client(client=None)] of telegram_bot.py: a falsy [client]
    ([None] or [{}]) starts the registration flow. *)
Definition add_client_bot (client : option dict) : ST state unit :=
  match client with
  | Some ((_ :: _) as d) => update_client_ids d ;;; write_config_st
  | _ => register_client_bot
  end.

(** The recipients [send_message] iterates over. *)
Inductive id_source : Type :=
| FromArg (l : list Z)
| FromRegistry (v : pyval).

(** [if not client_ids: client_ids = self.config.client_ids] *)
Definition select_ids (arg : option (list Z)) (reg : pyval) : id_source :=
  match arg with
  | Some ((_ :: _) as l) => FromArg l
  | _ => FromRegistry reg
  end.

Definition ids_truthy (src : id_source) : bool :=
  match src with
  | FromArg l => match l with [] => false | _ => true end
  | FromRegistry v => py_truthy v
  end.

(** [iter(v)]: a dict yields its keys, a string its characters. *)
Definition py_iter (v : pyval) : result (list pyval) :=
  match v with
  | PDict d => Ok (map fst d)
  | PStr s => Ok (map (fun c => PStr (String c EmptyString)) (list_ascii_of_string s))
  | _ => Err TypeError
  end.

Definition ids_iter (src : id_source) : result (list pyval) :=
  match src with
  | FromArg l => Ok (map PInt l)
  | FromRegistry v => py_iter v
  end.

(** [bot.send_message(chat_id=..., text=..., parse_mode=...)] *)
Definition bot_send (chat : pyval) (t : string) (pm : option string) : ST state unit :=
  fun s =>
    if existsb (py_key_eq chat) (st_unreachable s)
    then (Err TelegramError, add_call s (SendMessage chat t pm false))
    else (Ok tt, add_call s (SendMessage chat t pm true)).

(** [for chat_id in client_ids: bot.send_message(...)] *)
Fixpoint send_each (ids : list pyval) (t : string) (pm : option string) : ST state unit :=
  match ids with
  | [] => ret tt
  | c :: ids' => bot_send c t pm ;;; send_each ids' t pm
  end.

(** [send_message(message, parse_mode, client_ids)] (both variants). *)
Definition send_message (msg : string) (pm : option string) (arg : option (list Z))
  : ST state unit :=
  s <- get ;;
  let src := select_ids arg (client_ids (st_config s)) in
  if negb (py_truthy (token (st_config s))) then raise NoTokenError
  else if negb (ids_truthy src) then raise NoClientIdsError
  else ids <- lift_result (ids_iter src) ;; send_each ids msg pm.

(** Well-formed values: every dict has hashable, pairwise distinct keys. *)
Fixpoint py_wf (v : pyval) : bool :=
  match v with
  | PDict d => keys_distinct d && forallb (fun '(k, x) => py_hashable k && py_wf x) d
  | _ => true
  end.

(** A [dict[int, str]] as the registry stores it. *)
Definition registry_of (reg : list (Z * string)) : pyval :=
  PDict (map (fun '(k, v) => (PInt k, PStr v)) reg).

(** A credential: a string or [None]. *)
Definition credential_of (t : option string) : pyval :=
  match t with Some s => PStr s | None => PNone end.

(** Every key of [d] is new to [acc]. *)
Definition fresh_keys (acc d : dict) : bool :=
  forallb (fun kv => forallb (fun kv' => negb (py_key_eq (fst kv) (fst kv'))) acc) d.

(** The config file holds the serialized current config. *)
Definition persisted (s : state) : Prop :=
  open_read (st_fs s) (filepath (st_config s)) = Ok (pickle_dumps (config_dict (st_config s))).

(** A handler that raises SIGTERM leaves the config persisted. *)
Definition handler_persists (h : message -> ST state bool) : Prop :=
  forall m s r s1, st_sigterm s = false -> h m s = (r, s1) ->
                   st_sigterm s1 = true -> persisted s1.

(** An ASCII digit [0]-[9]. *)
Definition is_ascii_digit (c : ascii) : bool :=
  (48 <=? nat_of_ascii c)%nat && (nat_of_ascii c <=? 57)%nat.

(** ** Further notions used by the properties of the code *)

(** The proper ancestors of [acc ++ rest] that extend [acc], shortest
    first: the directories [open] walks through. *)
Fixpoint ancestors (acc : path) (rest : list string) : list path :=
  match rest with
  | [] | [_] => []
  | c :: rest' => (acc ++ [c]) :: ancestors (acc ++ [c]) rest'
  end.

Definition entry_is_dir (o : option entry) : bool :=
  match o with Some Dir => true | _ => false end.

Definition entry_is_file (o : option entry) : bool :=
  match o with Some (File _) => true | _ => false end.

(** Every entry of the file system sits below directories. *)
Definition fs_wfb (f : fs) : bool :=
  forallb (fun pe => forallb (fun q => entry_is_dir (fs_lookup f q)) (ancestors [] (fst pe))) f.

(** No ancestor of [p] is a regular file. *)
Definition no_file_ancestor (f : fs) (p : path) : bool :=
  forallb (fun q => negb (entry_is_file (fs_lookup f q))) (ancestors [] p).

(** [f'] differs from [f] only by new directories. *)
Definition fs_grows (f f' : fs) : Prop :=
  forall q, fs_lookup f' q = fs_lookup f q \/ (fs_lookup f q = None /\ fs_lookup f' q = Some Dir).

(** [TelegramHandler.emit(record)] on the formatted record. *)
Definition emit (formatted : string) : ST state unit :=
  send_message formatted None None.

(** The [__main__] block of telegram_bot.py once [TelegramBot()] has
    loaded its config: [set_bot_token(tok)], then [add_client()]. *)
Definition bot_main_block (tok : pyval) : ST state unit :=
  set_bot_token tok ;;; add_client_bot None.

(** Every key in [v'] is also in [v]. *)
Definition keys_within (v v' : pyval) : Prop :=
  forall k, py_in k v' = Ok true -> py_in k v = Ok true.

(** The config after accepting [m] into the registry [d]. *)
Definition registered_config (c : config) (d : dict) (m : message) : config :=
  with_client_ids c (PDict (dict_set d (PInt (chat_id m)) (PStr (chat_full_name m)))).

(** A step that leaves the config alone or registers the sender of [m]. *)
Definition registry_step (m : message) (c c' : config) : Prop :=
  c' = c \/
  exists d, client_ids c = PDict d /\ c' = registered_config c d m.

(** ** Concrete configurations *)

Definition demo_path : path := ["conf"%string; "telegram_config.pickle"%string].

(** A file system with the directory [conf] and [e] at [demo_path]. *)
Definition demo_fs_with (e : entry) : fs := [(demo_path, e); (["conf"%string], Dir)].

(** A bot with token ["123:abc"], an empty registry, no config file yet,
    chat [7] unreachable and three inbound messages. *)
Definition demo_state : state :=
  mk_state (mk_config demo_path (PStr "123:abc") (PDict [])) [] [] [PInt 7]
    [mk_message 9 "Eve" "hello"; mk_message 11 "Bob" "30741852";
     mk_message 12 "Carol" "later"]
    [] false (fun n => Z.of_nat (n * 37 + 3)) 0 "typed-token".

(** [demo_state] with registry [{5: "Alice", 7: "Bob", 8: "Carol"}]. *)
Definition demo_state3 : state :=
  set_config demo_state
    (with_client_ids (st_config demo_state)
       (registry_of [(5, "Alice"%string); (7, "Bob"%string); (8, "Carol"%string)])).

(** [demo_state] with registry [{5: "Alice"}]. *)
Definition demo_state1 : state :=
  set_config demo_state
    (with_client_ids (st_config demo_state) (registry_of [(5, "Alice"%string)])).

(** [demo_state] whose token is the empty string. *)
Definition demo_state_empty_token : state :=
  set_config demo_state (with_token (st_config demo_state) (PStr "")).

(** ** Generic lemmas *)

Section pyval_rect_nested.
Variable P : pyval -> Prop.
Hypothesis HNone : P PNone.
Hypothesis HBool : forall b, P (PBool b).
Hypothesis HInt : forall z, P (PInt z).
Hypothesis HStr : forall s, P (PStr s).
Hypothesis HDict : forall d, Forall (fun kv => P (fst kv) /\ P (snd kv)) d -> P (PDict d).

Fixpoint pyval_ind_nested (v : pyval) : P v :=
  match v with
  | PNone => HNone
  | PBool b => HBool b
  | PInt z => HInt z
  | PStr s => HStr s
  | PDict d =>
      HDict d
        ((fix items (d : list (pyval * pyval)) :
             Forall (fun kv => P (fst kv) /\ P (snd kv)) d :=
            match d with
            | [] => Forall_nil _
            | (k, x) :: d' =>
                Forall_cons (k, x) (conj (pyval_ind_nested k) (pyval_ind_nested x)) (items d')
            end) d)
  end.
End pyval_rect_nested.

Lemma py_key_eq_sym : forall a b, py_key_eq a b = py_key_eq b a.
Proof.
  destruct a as [| x | x | x | x], b as [| y | y | y | y]; simpl; try reflexivity;
    try apply Z.eqb_sym; try apply String.eqb_sym.
  destruct x, y; reflexivity.
Qed.

Lemma dict_set_fresh : forall d k v,
  forallb (fun kv => negb (py_key_eq k (fst kv))) d = true ->
  dict_set d k v = d ++ [(k, v)].
Proof.
  induction d as [| [k' v'] d IH]; intros k v H; simpl in *; [reflexivity |].
  apply andb_true_iff in H as [H1 H2].
  destruct (py_key_eq k k'); [discriminate |].
  rewrite IH by exact H2. reflexivity.
Qed.

Lemma pickle_val_dict : forall d,
  pickle_val (PDict d) =
  OP_EMPTY_DICT :: flat_map (fun kv => pickle_val (fst kv) ++ pickle_val (snd kv) ++ [OP_SETITEM]) d.
Proof.
  intro d. simpl. f_equal.
  induction d as [| [k x] d IH]; simpl; [reflexivity | now rewrite IH].
Qed.

Lemma unpickle_pickle_val : forall v, py_wf v = true ->
  forall rest stk, unpickle_run (pickle_val v ++ rest) stk = unpickle_run rest (v :: stk).
Proof.
  induction v as [| b | z | s | d Hd] using pyval_ind_nested; intros Hwf rest stk;
    try reflexivity.
  - destruct b; reflexivity.
  - rewrite pickle_val_dict. simpl in Hwf |- *.
    apply andb_true_iff in Hwf as [Hdist Hall].
    enough (Hitems : forall acc stk',
      fresh_keys acc d = true ->
      unpickle_run (flat_map (fun kv => pickle_val (fst kv) ++ pickle_val (snd kv) ++ [OP_SETITEM]) d ++ rest)
        (PDict acc :: stk') = unpickle_run rest (PDict (acc ++ d) :: stk')).
    { apply (Hitems [] stk). unfold fresh_keys. apply forallb_forall. reflexivity. }
    induction d as [| [k x] d IHd]; intros acc stk' Hfresh.
    + simpl. now rewrite app_nil_r.
    + inversion Hd as [| ? ? [Hk Hx] Hd']; subst.
      simpl in Hdist, Hall, Hfresh.
      apply andb_true_iff in Hdist as [Hkd Hdist].
      apply andb_true_iff in Hall as [Hkx Hall].
      apply andb_true_iff in Hkx as [Hhash Hwfx].
      apply andb_true_iff in Hfresh as [Hfk Hfresh].
      simpl. rewrite <- !app_assoc.
      assert (Hwfk : py_wf k = true) by (destruct k; try reflexivity; discriminate).
      rewrite Hk by exact Hwfk. rewrite Hx by exact Hwfx.
      simpl. rewrite Hhash.
      rewrite dict_set_fresh.
      2:{ apply forallb_forall. intros kv Hin.
          pose proof (proj1 (forallb_forall _ acc) Hfk kv Hin) as E. exact E. }
      rewrite IHd; try assumption.
      * rewrite <- app_assoc. reflexivity.
      * unfold fresh_keys in *. apply forallb_forall. intros kv Hin.
        rewrite forallb_app. apply andb_true_iff. split.
        -- exact (proj1 (forallb_forall _ d) Hfresh kv Hin).
        -- simpl. rewrite py_key_eq_sym.
           rewrite (proj1 (forallb_forall _ d) Hkd kv Hin). reflexivity.
Qed.

Lemma pickle_roundtrip : forall v, py_wf v = true -> pickle_load (pickle_dumps v) = Ok v.
Proof.
  intros v Hwf. unfold pickle_load, pickle_dumps.
  rewrite unpickle_pickle_val by exact Hwf. reflexivity.
Qed.

Lemma path_eqb_refl : forall p, path_eqb p p = true.
Proof. induction p; simpl; [reflexivity | now rewrite String.eqb_refl, IHp]. Qed.

Lemma path_eqb_length : forall p q, path_eqb p q = true -> List.length p = List.length q.
Proof.
  induction p as [| a p IH]; destruct q; simpl; intros H; try discriminate; auto.
  apply andb_true_iff in H as [_ H]. now rewrite (IH q H).
Qed.

Lemma fs_lookup_set : forall f p q e,
  fs_lookup (fs_set f p e) q = if path_eqb q p then Some e else fs_lookup f q.
Proof. reflexivity. Qed.

(** Path resolution only inspects paths shorter than the resolved one. *)
Lemma resolve_parents_set : forall rest acc f p e,
  (List.length acc + List.length rest <= List.length p)%nat ->
  resolve_parents (fs_set f p e) acc rest = resolve_parents f acc rest.
Proof.
  induction rest as [| c rest IH]; intros acc f p e Hlen; [reflexivity |].
  destruct rest as [| c' rest'] eqn:Er; [reflexivity |].
  cbn [resolve_parents]. rewrite <- Er in *.
  rewrite fs_lookup_set.
  destruct (path_eqb (acc ++ [c]) p) eqn:Eq.
  { apply path_eqb_length in Eq. rewrite length_app in Eq. subst rest. simpl in *. lia. }
  destruct (fs_lookup f (acc ++ [c])) as [[|]|]; try reflexivity.
  pose proof (IH (acc ++ [c]) f p e) as IH'. rewrite Er in IH'.
  exact (IH' ltac:(rewrite length_app; subst rest; simpl in *; lia)).
Qed.

Lemma open_write_then_read : forall b p f f',
  open_write b p f = (Ok tt, f') -> open_read f' p = Ok b.
Proof.
  intros b p f f' H. unfold open_write in H.
  destruct (resolve_parents f [] p) eqn:R; try discriminate.
  destruct (fs_lookup f p) as [[|]|] eqn:L; inversion H; subst;
    unfold open_read; rewrite resolve_parents_set by (simpl; lia);
    rewrite R, fs_lookup_set, path_eqb_refl; reflexivity.
Qed.

Lemma write_config_then_read : forall c f f',
  write_config c f = (Ok tt, f') ->
  open_read f' (filepath c) = Ok (pickle_dumps (config_dict c)).
Proof.
  intros c f f' H. unfold write_config in H.
  destruct (open_write (pickle_dumps (config_dict c)) (filepath c) f) as [r f1] eqn:E.
  destruct r as [[] | e |]; try discriminate.
  - inversion H; subst. exact (open_write_then_read _ _ _ _ E).
  - destruct e; try discriminate.
    unfold bind in H.
    destruct (makedirs (parent (filepath c)) f1) as [[[] | e' |] f2]; try discriminate.
    exact (open_write_then_read _ _ _ _ H).
Qed.

Lemma registry_of_wf : forall reg, NoDup (map fst reg) -> py_wf (registry_of reg) = true.
Proof.
  induction reg as [| [k v] reg IH]; intros Hnd; [reflexivity |].
  simpl in Hnd. inversion Hnd as [| ? ? Hnin Hnd']; subst.
  specialize (IH Hnd'). unfold registry_of in *. simpl in IH |- *.
  apply andb_true_iff in IH as [IH1 IH2].
  rewrite IH1, IH2. rewrite !andb_true_r.
  apply forallb_forall. intros kv Hin.
  apply in_map_iff in Hin as [[k' v'] [Ekv Hin']]. subst kv. simpl.
  destruct (Z.eqb_spec k k'); [| reflexivity].
  subst k'. exfalso. apply Hnin. apply in_map_iff. now exists (k, v').
Qed.

Lemma config_dict_wf : forall p t reg, NoDup (map fst reg) ->
  py_wf (config_dict (mk_config p (credential_of t) (registry_of reg))) = true.
Proof.
  intros p t reg Hnd. unfold config_dict. cbn -[registry_of].
  rewrite (registry_of_wf reg Hnd). destruct t; reflexivity.
Qed.

(** Path resolution with no regular file among the ancestors either
    succeeds or reports a missing ancestor. *)
Lemma resolve_parents_no_file : forall rest acc f,
  (forall pre c post b, rest = pre ++ c :: post -> post <> [] ->
     fs_lookup f (acc ++ pre ++ [c]) <> Some (File b)) ->
  resolve_parents f acc rest = Ok tt \/ resolve_parents f acc rest = Err FileNotFoundError.
Proof.
  induction rest as [| c rest IH]; intros acc f H; [now left |].
  destruct rest as [| c' rest'] eqn:Er; [now left |].
  rewrite <- Er in *. cbn [resolve_parents]. rewrite Er. rewrite <- Er.
  destruct (fs_lookup f (acc ++ [c])) as [[b |] |] eqn:L.
  - exfalso. apply (H [] c rest b); [reflexivity | subst; discriminate |].
    exact L.
  - apply IH. intros pre c0 post b Hr Hp.
    rewrite <- app_assoc. apply (H (c :: pre) c0 post b); [now rewrite Hr | exact Hp].
  - now right.
Qed.

(** ** C2: save then load *)

(** Claim C2: for every credential (a string or [None]) and every registry
    mapping integer ids to string labels, [write_config] to a path followed
    by [Config(path)] returns the same token and registry, including the
    [None] credential and the empty registry. *)
Theorem save_then_load_roundtrip :
  forall (p : path) (t : option string) (reg : list (Z * string)) (f f' : fs),
  NoDup (map fst reg) ->
  write_config (mk_config p (credential_of t) (registry_of reg)) f = (Ok tt, f') ->
  config_load f' p = Ok (mk_config p (credential_of t) (registry_of reg)).
Proof.
  intros p t reg f f' Hnd Hw.
  apply write_config_then_read in Hw. simpl in Hw.
  unfold config_load. rewrite Hw.
  rewrite pickle_roundtrip by (apply config_dict_wf; exact Hnd).
  reflexivity.
Qed.

(** ** C6: loading from a missing path *)

(** Nothing exists at the path and no ancestor of it is a regular file:
    [Config(path)] returns the token [None] and an empty registry. *)
Lemma load_missing_file_defaults : forall (f : fs) (p : path),
  fs_lookup f p = None ->
  (forall pre c post b, p = pre ++ c :: post -> post <> [] ->
     fs_lookup f (pre ++ [c]) <> Some (File b)) ->
  config_load f p = Ok (mk_config p PNone (PDict [])).
Proof.
  intros f p Hnone Hanc. unfold config_load, open_read.
  destruct (resolve_parents_no_file p [] f Hanc) as [R | R]; rewrite R;
    [rewrite Hnone |]; reflexivity.
Qed.

(** Walking to [acc ++ pre ++ c :: post] through directories and meeting
    the regular file [acc ++ pre ++ [c]] fails with [NotADirectoryError]. *)
Lemma resolve_parents_file_ancestor : forall pre acc f c post b,
  post <> [] ->
  Forall (fun q => fs_lookup f q = Some Dir) (ancestors acc (pre ++ [c])) ->
  fs_lookup f (acc ++ pre ++ [c]) = Some (File b) ->
  resolve_parents f acc (pre ++ c :: post) = Err NotADirectoryError.
Proof.
  induction pre as [| x pre IH]; intros acc f c post b Hpost Hd Hf.
  - destruct post as [| c' post]; [contradiction |].
    cbn [app resolve_parents]. cbn [app] in Hf. rewrite Hf. reflexivity.
  - assert (Ha : ancestors acc ((x :: pre) ++ [c]) =
                 (acc ++ [x]) :: ancestors (acc ++ [x]) (pre ++ [c]))
      by (destruct pre; reflexivity).
    rewrite Ha in Hd. inversion Hd as [| ? ? Hx Hr]; subst.
    assert (Hr2 : resolve_parents f acc ((x :: pre) ++ c :: post) =
                  resolve_parents f (acc ++ [x]) (pre ++ c :: post))
      by (cbn [app]; destruct pre; cbn [app resolve_parents]; rewrite Hx; reflexivity).
    rewrite Hr2. apply (IH (acc ++ [x]) f c post b Hpost Hr).
    rewrite <- app_assoc. exact Hf.
Qed.

(** Claim C6 (code bug): loading from a path where nothing exists returns
    the token [None] and an empty registry when no ancestor of the path is
    a regular file.  When a proper ancestor [pre ++ [c]] of the path is a
    regular file reached through directories, [open] raises
    [NotADirectoryError]; [Config.__init__] catches only
    [FileNotFoundError] and [pickle.UnpicklingError], so the error
    propagates, although the docstring promises [ConfigError] whenever the
    config file cannot be read. *)
Theorem load_missing_path_outcomes : forall (f : fs),
  (forall p : path,
     fs_lookup f p = None ->
     (forall pre c post b, p = pre ++ c :: post -> post <> [] ->
        fs_lookup f (pre ++ [c]) <> Some (File b)) ->
     config_load f p = Ok (mk_config p PNone (PDict []))) /\
  (forall (pre : path) (c : string) (post : list string) (b : bytes),
     post <> [] ->
     Forall (fun q => fs_lookup f q = Some Dir) (ancestors [] (pre ++ [c])) ->
     fs_lookup f (pre ++ [c]) = Some (File b) ->
     fs_lookup f (pre ++ c :: post) = None ->
     config_load f (pre ++ c :: post) = Err NotADirectoryError).
Proof.
  intros f. split.
  - exact (load_missing_file_defaults f).
  - intros pre c post b Hpost Hd Hf _. unfold config_load, open_read.
    rewrite (resolve_parents_file_ancestor pre [] f c post b Hpost Hd Hf). reflexivity.
Qed.

(** ** C7: unparseable config files *)

(** Claim C7 (code bug): a present but unparseable config file does not
    always yield [ConfigError]: an empty file raises [EOFError] and a valid
    pickle of a non-dict raises [AttributeError]; only a stream that
    [pickle] rejects with [UnpicklingError] becomes [ConfigError]. *)
Theorem load_unparseable_config_errors :
  config_load (demo_fs_with (File [])) demo_path = Err EOFError /\
  config_load (demo_fs_with (File [OP_BININT 5; OP_STOP])) demo_path = Err AttributeError /\
  config_load (demo_fs_with (File [OP_INVALID 128])) demo_path = Err ConfigError.
Proof. repeat split; reflexivity. Qed.

(** ** C1: the guards of [send_message] *)

(** Claim C1 refuted: with the token set, an explicitly passed empty list
    of recipients falls back to the registry and the message is sent
    instead of raising [NoClientIdsError]; and a token that is the empty
    string counts as unset, so [NoTokenError] is raised where the claim
    expects [NoClientIdsError]. *)
Lemma send_message_guards_counterexample :
  send_message "hi" None (Some []) demo_state1 =
    (Ok tt, add_call demo_state1 (SendMessage (PInt 5) "hi" None true)) /\
  send_message "hi" None None demo_state_empty_token =
    (Err NoTokenError, demo_state_empty_token).
Proof. split; reflexivity. Qed.

(** Claim C1 (amended): if the token is falsy ([None] or [""]),
    [send_message] raises [NoTokenError]; if the token is truthy, no
    non-empty recipient list is passed ([None] or an empty list, both of
    which fall back to the registry) and the registry is empty,
    it raises [NoClientIdsError]; in both cases the state is unchanged, so
    no transport call is made.  An explicit empty list behaves exactly as
    no list: it is replaced by the registry, and with a truthy token and a
    non-empty registry dict the call is the broadcast loop over the
    registry's keys, in order. *)
Theorem send_message_guards : forall msg pm arg s (d : dict),
  (py_truthy (token (st_config s)) = false ->
     send_message msg pm arg s = (Err NoTokenError, s)) /\
  (py_truthy (token (st_config s)) = true ->
   (arg = None \/ arg = Some []) ->
   py_truthy (client_ids (st_config s)) = false ->
     send_message msg pm arg s = (Err NoClientIdsError, s)) /\
  send_message msg pm (Some []) s = send_message msg pm None s /\
  (py_truthy (token (st_config s)) = true ->
   (arg = None \/ arg = Some []) ->
   client_ids (st_config s) = PDict d -> py_truthy (PDict d) = true ->
     send_message msg pm arg s = send_each (map fst d) msg pm s).
Proof.
  intros msg pm arg s d. split; [| split; [| split]].
  - intros Ht. unfold send_message, bind, get. cbn. rewrite Ht. reflexivity.
  - intros Ht Harg Hr. unfold send_message, bind, get. cbn. rewrite Ht.
    destruct Harg as [-> | ->]; cbn; rewrite Hr; reflexivity.
  - reflexivity.
  - intros Ht Harg Hd Hne. unfold send_message, bind, get. cbn. rewrite Ht.
    destruct Harg as [-> | ->]; cbn; rewrite Hd; cbn;
      (destruct d as [| kv d]; [discriminate |]); reflexivity.
Qed.

(** ** C4: the preconditions of [get_message] *)

(** Claim C4 refuted: in telegram_bot.py, [get_message] with a token but
    an empty registry raises [NoClientIdsError] instead of opening the
    session. *)
Lemma get_message_precondition_counterexample :
  py_truthy (token (st_config demo_state)) = true /\
  get_message_bot (fun _ => ret (PBool true)) demo_state =
    (Err NoClientIdsError, demo_state).
Proof. split; reflexivity. Qed.

(** Claim C4 (amended): in both variants a falsy token makes
    [get_message] raise [NoTokenError]; in telegram_utils/main.py a truthy
    token is the only precondition and the session is returned whatever the
    registry holds; in telegram_bot.py a truthy token with a falsy
    registry raises [NoClientIdsError], and a truthy token with a
    non-empty registry returns the session. *)
Theorem get_message_preconditions : forall (f : message -> ST state pyval) s,
  (py_truthy (token (st_config s)) = false ->
     get_message_main f s = (Err NoTokenError, s) /\
     get_message_bot f s = (Err NoTokenError, s)) /\
  (py_truthy (token (st_config s)) = true ->
     get_message_main f s = (Ok (listen_session (handle_msg_main f)), s)) /\
  (py_truthy (token (st_config s)) = true ->
   py_truthy (client_ids (st_config s)) = false ->
     get_message_bot f s = (Err NoClientIdsError, s)) /\
  (py_truthy (token (st_config s)) = true ->
   py_truthy (client_ids (st_config s)) = true ->
     get_message_bot f s = (Ok (listen_session (handle_msg_bot f)), s)).
Proof.
  intros f s.
  unfold get_message_main, get_message_bot, bind, get, raise, ret.
  repeat split; intros; repeat match goal with H : _ = _ |- _ => rewrite H end;
    reflexivity.
Qed.

(** ** C5: a failing send aborts the broadcast *)

Lemma ids_iter_nonempty_truthy : forall src y l,
  ids_iter src = Ok (y :: l) -> ids_truthy src = true.
Proof.
  intros [l0 | v] y l H; simpl in *.
  - destruct l0; [discriminate | reflexivity].
  - destruct v as [| | | s0 | d]; simpl in H; try discriminate.
    + destruct s0; [discriminate | reflexivity].
    + destruct d; [discriminate | reflexivity].
Qed.

Lemma send_each_abort : forall msg pm x post pre s,
  Forall (fun c => existsb (py_key_eq c) (st_unreachable s) = false) pre ->
  existsb (py_key_eq x) (st_unreachable s) = true ->
  exists s', send_each (pre ++ x :: post) msg pm s = (Err TelegramError, s') /\
    st_calls s' = st_calls s ++ map (fun c => SendMessage c msg pm true) pre
                    ++ [SendMessage x msg pm false] /\
    st_config s' = st_config s.
Proof.
  intros msg pm x post pre.
  induction pre as [| c pre IH]; intros s Hpre Hx; simpl.
  - unfold bind, bot_send. rewrite Hx.
    eexists. split; [reflexivity |]. split; reflexivity.
  - inversion Hpre as [| ? ? Hc Hpre']; subst.
    unfold bind, bot_send. cbn [existsb]. rewrite Hc. fold (@bind state unit unit).
    destruct (IH (add_call s (SendMessage c msg pm true)) Hpre' Hx) as [s' [E [Ec Eg]]].
    exists s'. split; [exact E |]. split; [| exact Eg].
    rewrite Ec. simpl. rewrite <- app_assoc. reflexivity.
Qed.

(** Claim C5: when the transport send for a recipient fails during a
    broadcast, [send_message] raises the transport's error, the sends to
    the earlier recipients stay made, and no send is attempted for any
    later recipient. *)
Theorem send_message_stops_at_failure : forall msg pm arg s pre x post,
  py_truthy (token (st_config s)) = true ->
  ids_iter (select_ids arg (client_ids (st_config s))) = Ok (pre ++ x :: post) ->
  Forall (fun c => existsb (py_key_eq c) (st_unreachable s) = false) pre ->
  existsb (py_key_eq x) (st_unreachable s) = true ->
  exists s', send_message msg pm arg s = (Err TelegramError, s') /\
    st_calls s' = st_calls s ++ map (fun c => SendMessage c msg pm true) pre
                    ++ [SendMessage x msg pm false] /\
    st_config s' = st_config s.
Proof.
  intros msg pm arg s pre x post Ht Hids Hpre Hx.
  assert (Htr : ids_truthy (select_ids arg (client_ids (st_config s))) = true).
  { destruct pre; eapply ids_iter_nonempty_truthy; exact Hids. }
  unfold send_message, bind, get, lift_result. cbn beta iota.
  rewrite Ht, Htr. cbn beta iota. rewrite Hids. cbn beta iota.
  exact (send_each_abort msg pm x post pre s Hpre Hx).
Qed.

(** ** C8: the registration password *)

Lemma py_str_int_digit : forall z, 0 <= z < 10 ->
  py_str_int z = String (ascii_of_nat (48 + Z.to_nat z)) EmptyString.
Proof.
  intros z Hz. unfold py_str_int.
  replace (z <? 0) with false by (symmetry; apply Z.ltb_ge; lia).
  destruct (Z.to_nat (Z.log2 (Z.abs z))); simpl;
    [| replace (z <? 10) with true by (symmetry; apply Z.ltb_lt; lia)];
    rewrite Z.mod_small by lia; reflexivity.
Qed.

Lemma draw_digits_run : forall n s,
  draw_digits n s =
  (Ok (map (fun i => py_str_int (st_rand s i mod 10)) (seq (st_rpos s) n)),
   set_rpos s (st_rpos s + n)).
Proof.
  induction n as [| n IH]; intros s; simpl.
  - unfold ret. rewrite Nat.add_0_r. destruct s; reflexivity.
  - unfold bind at 1. simpl. unfold bind. rewrite IH. simpl.
    rewrite Nat.add_succ_r. reflexivity.
Qed.

Lemma concat_singletons : forall cs,
  String.concat "" (map (fun c => String c EmptyString) cs) = string_of_list_ascii cs.
Proof.
  induction cs as [| c cs IH]; [reflexivity |].
  simpl. destruct cs as [| c' cs']; [reflexivity |].
  rewrite <- IH. reflexivity.
Qed.

Lemma length_string_of_list_ascii : forall cs,
  String.length (string_of_list_ascii cs) = List.length cs.
Proof. induction cs; simpl; congruence. Qed.

(** Claim C8: every run of the registration flow's password generation
    yields a string of exactly 8 ASCII digits, built from the next 8 draws
    of the random generator, which it consumes (so each call uses fresh
    draws). *)
Theorem password_eight_ascii_digits : forall s,
  exists pw,
    gen_password s = (Ok pw, set_rpos s (st_rpos s + 8)) /\
    pw = String.concat "" (map (fun i => py_str_int (st_rand s i mod 10)) (seq (st_rpos s) 8)) /\
    String.length pw = 8%nat /\
    forallb is_ascii_digit (list_ascii_of_string pw) = true.
Proof.
  intros s. eexists. split.
  { unfold gen_password, bind. rewrite draw_digits_run. reflexivity. }
  split; [reflexivity |].
  set (digit := fun i => ascii_of_nat (48 + Z.to_nat (st_rand s i mod 10))).
  assert (E : map (fun i => py_str_int (st_rand s i mod 10)) (seq (st_rpos s) 8) =
              map (fun c => String c EmptyString) (map digit (seq (st_rpos s) 8))).
  { rewrite map_map. apply map_ext. intros i. unfold digit.
    apply py_str_int_digit. apply Z.mod_pos_bound. lia. }
  rewrite E, concat_singletons. split.
  - rewrite length_string_of_list_ascii, length_map, length_seq. reflexivity.
  - rewrite list_ascii_of_string_of_list_ascii. apply forallb_forall.
    intros c Hin. apply in_map_iff in Hin as [i [<- _]]. unfold digit, is_ascii_digit.
    pose proof (Z.mod_pos_bound (st_rand s i) 10 ltac:(lia)) as B.
    rewrite nat_ascii_embedding by lia.
    apply andb_true_iff. split; apply Nat.leb_le; lia.
Qed.

(** ** C9: [add_client] merges with last-write-wins *)

Ltac key_eq_cases :=
  repeat match goal with
         | H : Z.eqb _ _ = true |- _ => apply Z.eqb_eq in H; subst
         | H : String.eqb _ _ = true |- _ => apply String.eqb_eq in H; subst
         | H : Bool.eqb _ _ = true |- _ => apply eqb_prop in H; subst
         end.

(** Keys equal under [==] are interchangeable. *)
Lemma py_key_eq_trans : forall a b c,
  py_key_eq a b = true -> py_key_eq c a = py_key_eq c b.
Proof.
  intros a b c H.
  destruct a as [| x | x | x | x], b as [| y | y | y | y]; simpl in H;
    try discriminate; key_eq_cases;
    destruct c as [| w | w | w | w]; simpl; try reflexivity;
    try (destruct x; reflexivity); try (destruct y; reflexivity);
    try (destruct w, x; reflexivity); try (destruct w, y; reflexivity).
Qed.

Lemma dict_lookup_set : forall d k v k',
  dict_lookup (dict_set d k v) k' = if py_key_eq k' k then Some v else dict_lookup d k'.
Proof.
  induction d as [| [k0 v0] d IH]; intros k v k'; simpl.
  - destruct (py_key_eq k' k); reflexivity.
  - destruct (py_key_eq k k0) eqn:E; simpl.
    + rewrite (py_key_eq_trans _ _ k' E). destruct (py_key_eq k' k0); reflexivity.
    + rewrite IH. destruct (py_key_eq k' k0) eqn:E'; [| reflexivity].
      destruct (py_key_eq k' k) eqn:E''; [| reflexivity].
      pose proof (py_key_eq_trans _ _ k0 E'') as T.
      rewrite py_key_eq_sym, E', py_key_eq_sym, E in T. discriminate.
Qed.

Lemma dict_lookup_none_fresh : forall c k k0,
  forallb (fun kv => negb (py_key_eq k0 (fst kv))) c = true ->
  py_key_eq k k0 = true -> dict_lookup c k = None.
Proof.
  induction c as [| [k1 v1] c IH]; intros k k0 Hf Hk; simpl in *; [reflexivity |].
  apply andb_true_iff in Hf as [H1 H2].
  assert (E : py_key_eq k k1 = false).
  { pose proof (py_key_eq_trans _ _ k1 Hk) as T.
    rewrite py_key_eq_sym, T, py_key_eq_sym.
    destruct (py_key_eq k0 k1); [discriminate | reflexivity]. }
  rewrite E. exact (IH k k0 H2 Hk).
Qed.

Lemma dict_lookup_update : forall c d k,
  keys_distinct c = true ->
  dict_lookup (dict_update d c) k =
  match dict_lookup c k with Some v => Some v | None => dict_lookup d k end.
Proof.
  unfold dict_update.
  induction c as [| [k0 v0] c IH]; intros d k Hc; simpl; [reflexivity |].
  simpl in Hc. apply andb_true_iff in Hc as [Hf Hc].
  rewrite IH by exact Hc. rewrite dict_lookup_set.
  destruct (py_key_eq k k0) eqn:E.
  - rewrite (dict_lookup_none_fresh c k k0 Hf E). reflexivity.
  - destruct (dict_lookup c k); reflexivity.
Qed.

Lemma write_config_st_config : forall s r s',
  write_config_st s = (r, s') -> st_config s' = st_config s.
Proof.
  intros s r s' H. unfold write_config_st, bind, get, on_fs in H. cbn in H.
  destruct (write_config (st_config s) (st_fs s)) as [r' f'].
  inversion H; subst. reflexivity.
Qed.

Lemma add_client_main_registry : forall c s s' d,
  client_ids (st_config s) = PDict d ->
  add_client_main c s = (Ok tt, s') ->
  client_ids (st_config s') = PDict (dict_update d c).
Proof.
  intros c s s' d Hd H.
  unfold add_client_main, update_client_ids, bind at 1, bind at 1, get in H.
  cbn beta iota in H. rewrite Hd in H. unfold put in H. cbn beta iota in H.
  apply write_config_st_config in H. rewrite H. reflexivity.
Qed.

(** Claim C9: [add_client(c)] leaves every key of [c] mapped to [c]'s label
    (replacing an existing label) and every other key of the registry
    unchanged; in particular [{5: "Alice"}] then [{5: "Bob"}] on an empty
    registry yields [{5: "Bob"}]. *)
Theorem add_client_last_write_wins :
  (forall (c : dict) s s' d k,
     client_ids (st_config s) = PDict d -> keys_distinct c = true ->
     add_client_main c s = (Ok tt, s') ->
     exists d', client_ids (st_config s') = PDict d' /\
       dict_lookup d' k = match dict_lookup c k with
                          | Some v => Some v
                          | None => dict_lookup d k
                          end) /\
  (forall s s1 s2,
     client_ids (st_config s) = PDict [] ->
     add_client_main [(PInt 5, PStr "Alice")] s = (Ok tt, s1) ->
     add_client_main [(PInt 5, PStr "Bob")] s1 = (Ok tt, s2) ->
     client_ids (st_config s2) = PDict [(PInt 5, PStr "Bob")]).
Proof.
  split.
  - intros c s s' d k Hd Hc H. exists (dict_update d c).
    split; [exact (add_client_main_registry c s s' d Hd H) |].
    apply dict_lookup_update. exact Hc.
  - intros s s1 s2 H0 H1 H2.
    pose proof (add_client_main_registry _ _ _ _ H0 H1) as R1.
    exact (add_client_main_registry _ _ _ _ R1 H2).
Qed.

(** ** C10: the predicate's result is tested with [is False] *)



Section is_False_session.
(** [I] is an invariant of the config and the files that the predicate
    keeps; on the messages of [L] the predicate returns [pred m] and makes
    no transport call and no session change. *)
Variable I : config -> fs -> Prop.
Variable f : message -> ST state pyval.
Variable pred : message -> pyval.
Variable h : message -> ST state bool.
Variable L : list message.
Hypothesis HF : forall m s0, In m L -> I (st_config s0) (st_fs s0) ->
  exists s1, f m s0 = (Ok (pred m), s1) /\ I (st_config s1) (st_fs s1) /\
    st_calls s1 = st_calls s0 /\ st_inbox s1 = st_inbox s0 /\ st_sigterm s1 = st_sigterm s0.
Hypothesis Hh : forall m s0, In m L -> I (st_config s0) (st_fs s0) ->
  h m s0 = handle_msg_main f m s0.





End is_False_session.


(** ** C3: every mutation is persisted before the call returns *)

Lemma persisted_frame : forall s s',
  st_config s' = st_config s -> st_fs s' = st_fs s -> persisted s -> persisted s'.
Proof. intros s s' Hc Hf H. unfold persisted in *. now rewrite Hc, Hf. Qed.

Lemma write_config_st_persisted : forall s s',
  write_config_st s = (Ok tt, s') -> persisted s'.
Proof.
  intros s s' H. unfold write_config_st, bind, get, on_fs in H. cbn in H.
  destruct (write_config (st_config s) (st_fs s)) as [r f'] eqn:E.
  inversion H; subst. unfold persisted. simpl.
  exact (write_config_then_read _ _ _ E).
Qed.

Lemma write_config_st_shape : forall s r s',
  write_config_st s = (r, s') -> s' = set_fs s (st_fs s').
Proof.
  intros s r s' H. unfold write_config_st, bind, get, on_fs in H. cbn in H.
  destruct (write_config (st_config s) (st_fs s)) as [r' f'].
  inversion H; subst. reflexivity.
Qed.

Lemma update_client_ids_shape : forall c s r s',
  update_client_ids c s = (r, s') -> s' = set_config s (st_config s').
Proof.
  intros c s r s' H. unfold update_client_ids, bind, get in H. cbn in H.
  destruct (client_ids (st_config s)); inversion H; subst; try reflexivity;
    match goal with |- ?x = _ => destruct x; reflexivity end.
Qed.


Lemma handle_msg_main_persists : forall f,
  (forall m s v s1, f m s = (Ok v, s1) -> py_is_False v = false -> persisted s1) ->
  (forall m s r s1, f m s = (r, s1) -> st_sigterm s1 = st_sigterm s) ->
  handler_persists (handle_msg_main f).
Proof.
  intros f Hacc Hsig m s r s1 H0 H H1.
  unfold handle_msg_main, bind in H.
  destruct (chat_data_update m s) as [rA sA] eqn:EA.
  assert (SA : st_sigterm sA = st_sigterm s /\ rA = Ok tt)
    by (unfold chat_data_update in EA; inversion EA; auto).
  destruct SA as [SA ->].
  destruct (f m sA) as [rB sB] eqn:EB.
  pose proof (Hsig _ _ _ _ EB) as SB.
  destruct rB as [v | e |].
  - destruct (py_is_False v) eqn:Fv.
    + unfold reply_text, ret in H. inversion H; subst.
      simpl in H1. congruence.
    + pose proof (Hacc _ _ _ _ EB Fv) as P.
      unfold reply_text, raise_sigterm, ret in H. inversion H; subst.
      eapply persisted_frame; [reflexivity | reflexivity | exact P].
  - inversion H; subst. congruence.
  - inversion H; subst. congruence.
Qed.

Lemma handle_passwd_accept_persisted : forall pw m s v s1,
  handle_passwd pw m s = (Ok v, s1) -> py_is_False v = false -> persisted s1.
Proof.
  intros pw m s v s1 H Fv. unfold handle_passwd in H.
  destruct (String.eqb (text m) pw).
  - unfold bind in H.
    destruct (update_client_ids _ s) as [[[] | e |] sU]; try discriminate.
    destruct (write_config_st sU) as [[[] | e |] sW] eqn:EW; try discriminate.
    unfold ret in H. inversion H; subst.
    exact (write_config_st_persisted _ _ EW).
  - unfold ret in H. inversion H; subst. discriminate.
Qed.

Lemma handle_passwd_sigterm : forall pw m s r s1,
  handle_passwd pw m s = (r, s1) -> st_sigterm s1 = st_sigterm s.
Proof.
  intros pw m s r s1 H. unfold handle_passwd in H.
  destruct (String.eqb (text m) pw).
  - unfold bind in H.
    destruct (update_client_ids _ s) as [rU sU] eqn:EU.
    apply update_client_ids_shape in EU.
    destruct rU as [[] | e |].
    2, 3: inversion H; subst; rewrite EU; reflexivity.
    destruct (write_config_st sU) as [rW sW] eqn:EW.
    apply write_config_st_shape in EW.
    destruct rW as [[] | e |]; inversion H; subst; rewrite EW, EU; reflexivity.
  - unfold ret in H. inversion H; subst. reflexivity.
Qed.

Lemma handle_passwd_main_persists : forall pw,
  handler_persists (handle_msg_main (handle_passwd pw)).
Proof.
  intros pw. apply handle_msg_main_persists.
  - apply handle_passwd_accept_persisted.
  - apply handle_passwd_sigterm.
Qed.

Lemma handle_passwd_bot_persists : forall pw,
  handler_persists (handle_msg_bot (handle_passwd pw)).
Proof.
  intros pw m s r s1 H0 H H1. unfold handle_msg_bot, bind, get, lift_result in H.
  cbn beta iota in H.
  destruct (py_in (PInt (chat_id m)) (client_ids (st_config s))) as [[] | e |];
    cbn in H.
  - exact (handle_passwd_main_persists pw m s r s1 H0 H H1).
  - unfold ret in H. inversion H; subst. congruence.
  - inversion H; subst. congruence.
  - inversion H; subst. congruence.
Qed.

Lemma poll_persists : forall n h s s',
  handler_persists h -> st_sigterm s = false ->
  poll n h s = (Ok tt, s') -> persisted s'.
Proof.
  induction n as [| n IH]; intros h s s' Hh H0 H; simpl in H; [discriminate |].
  destruct (st_inbox s) as [| m rest]; [discriminate |].
  destruct (h m (set_inbox s rest)) as [r s1] eqn:E.
  destruct (st_sigterm s1) eqn:S1.
  - inversion H; subst. exact (Hh _ (set_inbox s rest) _ _ H0 E S1).
  - exact (IH h s1 s' Hh S1 H).
Qed.

Lemma listen_session_persists : forall h s cd s',
  handler_persists h -> listen_session h s = (Ok cd, s') -> persisted s'.
Proof.
  intros h s cd s' Hh H. unfold listen_session, bind in H.
  destruct (poll _ h (set_session s [] false)) as [[[] | e |] s1] eqn:E;
    try discriminate.
  unfold get, ret in H. inversion H; subst.
  exact (poll_persists _ h (set_session s [] false) _ Hh eq_refl E).
Qed.

Lemma gen_password_run : forall s,
  exists pw s1, gen_password s = (Ok pw, s1).
Proof.
  intros s. unfold gen_password, bind. rewrite draw_digits_run.
  do 2 eexists. reflexivity.
Qed.

Lemma get_message_main_ok : forall f s w s',
  get_message_main f s = (Ok w, s') -> w = listen_session (handle_msg_main f) /\ s' = s.
Proof.
  intros f s w s' H. unfold get_message_main, bind, get, raise, ret in H.
  destruct (py_truthy (token (st_config s))); inversion H; auto.
Qed.

Lemma get_message_bot_ok : forall f s w s',
  get_message_bot f s = (Ok w, s') -> w = listen_session (handle_msg_bot f) /\ s' = s.
Proof.
  intros f s w s' H. unfold get_message_bot, bind, get, raise, ret in H.
  destruct (py_truthy (token (st_config s))), (py_truthy (client_ids (st_config s)));
    inversion H; auto.
Qed.

Lemma bind_ok_inv : forall {S A B} (m : ST S A) (k : A -> ST S B) s b s',
  bind m k s = (Ok b, s') -> exists a s1, m s = (Ok a, s1) /\ k a s1 = (Ok b, s').
Proof.
  intros S A B m k s b s' H. unfold bind in H.
  destruct (m s) as [[a | e |] s1]; try discriminate. eauto.
Qed.

(** The bodies of the registration flows, stated in the direction the
    kernel checks without evaluating the password draw. *)
Lemma register_client_main_unfold : forall s,
  (password <- gen_password ;;
   wrapper <- get_message_main (handle_passwd password) ;;
   wrapper ;;; ret tt) s = register_client_main s.
Proof. intros s. exact eq_refl. Qed.

Lemma register_client_bot_unfold : forall s,
  (password <- gen_password ;;
   wrapper <- get_message_bot (handle_passwd password) ;;
   wrapper ;;; ret tt) s = register_client_bot s.
Proof. intros s. exact eq_refl. Qed.

Lemma register_client_main_persisted : forall s s',
  register_client_main s = (Ok tt, s') -> persisted s'.
Proof.
  intros s s' H. rewrite <- register_client_main_unfold in H.
  apply bind_ok_inv in H as [pw [s1 [_ H]]].
  apply bind_ok_inv in H as [w [s2 [E2 H]]].
  apply get_message_main_ok in E2 as [-> ->].
  apply bind_ok_inv in H as [cd [s3 [E3 H]]].
  unfold ret in H. inversion H; subst.
  exact (listen_session_persists _ _ _ _ (handle_passwd_main_persists pw) E3).
Qed.

Lemma register_client_bot_persisted : forall s s',
  register_client_bot s = (Ok tt, s') -> persisted s'.
Proof.
  intros s s' H. rewrite <- register_client_bot_unfold in H.
  apply bind_ok_inv in H as [pw [s1 [_ H]]].
  apply bind_ok_inv in H as [w [s2 [E2 H]]].
  apply get_message_bot_ok in E2 as [-> ->].
  apply bind_ok_inv in H as [cd [s3 [E3 H]]].
  unfold ret in H. inversion H; subst.
  exact (listen_session_persists _ _ _ _ (handle_passwd_bot_persists pw) E3).
Qed.

Lemma add_client_bot_falsy : forall c,
  match c with Some (_ :: _) => False | _ => True end ->
  add_client_bot c = register_client_bot.
Proof. intros [[| kv d] |] H; [reflexivity | contradiction | reflexivity]. Qed.

Lemma then_write_persisted : forall (m : ST state unit) s s',
  (m ;;; write_config_st) s = (Ok tt, s') -> persisted s'.
Proof.
  intros m s s' H. unfold bind at 1 in H.
  destruct (m s) as [[[] | e |] s1]; try discriminate.
  exact (write_config_st_persisted _ _ H).
Qed.

(** Claim C3: whenever [set_bot_token], [add_client] (both variants, the
    registration branch of telegram_bot.py included), the registration
    handler [handle_passwd] on acceptance, or [register_client] returns
    normally, the config file at [self.config.filepath] holds the pickled
    current token and registry. *)
Theorem mutations_persist_immediately :
  (forall tok s s', set_bot_token tok s = (Ok tt, s') -> persisted s') /\
  (forall c s s', add_client_main c s = (Ok tt, s') -> persisted s') /\
  (forall c s s', add_client_bot c s = (Ok tt, s') -> persisted s') /\
  (forall pw m s s', handle_passwd pw m s = (Ok (PBool true), s') -> persisted s') /\
  (forall s s', register_client_main s = (Ok tt, s') -> persisted s').
Proof.
  repeat split.
  - intros tok s s' H. unfold set_bot_token, bind at 1, get in H.
    exact (then_write_persisted _ _ _ H).
  - intros c s s' H. exact (then_write_persisted _ _ _ H).
  - intros [[| kv d] |] s s' H.
    + rewrite add_client_bot_falsy in H by exact I.
      exact (register_client_bot_persisted _ _ H).
    + exact (then_write_persisted _ _ _ H).
    + rewrite add_client_bot_falsy in H by exact I.
      exact (register_client_bot_persisted _ _ H).
  - intros pw m s s' H. exact (handle_passwd_accept_persisted _ _ _ _ _ H eq_refl).
  - exact register_client_main_persisted.
Qed.

(** ** Witnesses: the theorems applied at concrete inputs *)

Lemma save_then_load_roundtrip_witness :
  NoDup (map fst [(5, "Alice"%string)]) /\
  write_config (mk_config demo_path (credential_of (Some "123:abc"%string))
                  (registry_of [(5, "Alice"%string)])) [] =
    (Ok tt, snd (write_config (mk_config demo_path (credential_of (Some "123:abc"%string))
                  (registry_of [(5, "Alice"%string)])) [])) /\
  config_load (snd (write_config (mk_config demo_path (credential_of (Some "123:abc"%string))
                  (registry_of [(5, "Alice"%string)])) [])) demo_path =
    Ok (mk_config demo_path (credential_of (Some "123:abc"%string))
          (registry_of [(5, "Alice"%string)])).
Proof.
  split; [repeat constructor; simpl; tauto |].
  split; [reflexivity |].
  apply (save_then_load_roundtrip demo_path (Some "123:abc"%string) [(5, "Alice"%string)] []).
  - repeat constructor; simpl; tauto.
  - reflexivity.
Defined.

Lemma send_message_guards_witness :
  send_message "hi" None None demo_state_empty_token = (Err NoTokenError, demo_state_empty_token) /\
  send_message "hi" None (Some []) demo_state = (Err NoClientIdsError, demo_state) /\
  send_message "hi" None (Some []) demo_state1 = send_message "hi" None None demo_state1 /\
  send_message "hi" None (Some []) demo_state3 =
    send_each (map fst [(PInt 5, PStr "Alice"); (PInt 7, PStr "Bob"); (PInt 8, PStr "Carol")])
      "hi" None demo_state3.
Proof.
  split; [| split; [| split]].
  - apply (proj1 (send_message_guards "hi" None None demo_state_empty_token [])). reflexivity.
  - apply (proj1 (proj2 (send_message_guards "hi" None (Some []) demo_state [])));
      [reflexivity | right; reflexivity | reflexivity].
  - exact (proj1 (proj2 (proj2 (send_message_guards "hi" None None demo_state1 [])))).
  - apply (proj2 (proj2 (proj2 (send_message_guards "hi" None (Some []) demo_state3
             [(PInt 5, PStr "Alice"); (PInt 7, PStr "Bob"); (PInt 8, PStr "Carol")]))));
      [reflexivity | right; reflexivity | reflexivity | reflexivity].
Defined.

Lemma get_message_preconditions_witness :
  get_message_bot (fun _ => ret (PBool true)) demo_state_empty_token =
    (Err NoTokenError, demo_state_empty_token) /\
  get_message_main (fun _ => ret (PBool true)) demo_state =
    (Ok (listen_session (handle_msg_main (fun _ => ret (PBool true)))), demo_state) /\
  get_message_bot (fun _ => ret (PBool true)) demo_state = (Err NoClientIdsError, demo_state) /\
  get_message_bot (fun _ => ret (PBool true)) demo_state1 =
    (Ok (listen_session (handle_msg_bot (fun _ => ret (PBool true)))), demo_state1).
Proof.
  split; [apply (get_message_preconditions (fun _ => ret (PBool true)) demo_state_empty_token);
          reflexivity |].
  split; [apply (get_message_preconditions (fun _ => ret (PBool true)) demo_state);
          reflexivity |].
  split; [apply (get_message_preconditions (fun _ => ret (PBool true)) demo_state);
          reflexivity |].
  apply (get_message_preconditions (fun _ => ret (PBool true)) demo_state1); reflexivity.
Defined.

Lemma load_missing_path_outcomes_witness :
  config_load [(["conf"%string], Dir)] demo_path = Ok (mk_config demo_path PNone (PDict [])) /\
  config_load [(["a"%string], File [])] ["a"%string; "b"%string] = Err NotADirectoryError.
Proof.
  split.
  - apply (proj1 (load_missing_path_outcomes [(["conf"%string], Dir)])); [reflexivity |].
    intros pre c post b Hp Hpost.
    destruct pre as [| x [| y pre']]; simpl in Hp; inversion Hp; subst.
    + discriminate.
    + contradiction.
    + destruct pre'; discriminate.
  - apply (proj2 (load_missing_path_outcomes [(["a"%string], File [])]) [] "a"%string
             ["b"%string] []); [discriminate | constructor | reflexivity | reflexivity].
Defined.

Lemma send_message_stops_at_failure_witness :
  exists s', send_message "hi" None None demo_state3 = (Err TelegramError, s') /\
    st_calls s' = [SendMessage (PInt 5) "hi" None true; SendMessage (PInt 7) "hi" None false].
Proof.
  destruct (send_message_stops_at_failure "hi" None None demo_state3 [PInt 5] (PInt 7) [PInt 8])
    as [s' [E [C _]]]; [reflexivity | reflexivity | repeat constructor | reflexivity |].
  exists s'. split; [exact E | exact C].
Defined.

Lemma add_client_last_write_wins_witness :
  (exists d', client_ids (st_config (snd (add_client_main [(PInt 5, PStr "Bob")] demo_state1))) = PDict d' /\
     dict_lookup d' (PInt 5) = Some (PStr "Bob")) /\
  client_ids (st_config (snd (add_client_main [(PInt 5, PStr "Bob")]
    (snd (add_client_main [(PInt 5, PStr "Alice")] demo_state))))) = PDict [(PInt 5, PStr "Bob")].
Proof.
  split.
  - destruct (proj1 add_client_last_write_wins [(PInt 5, PStr "Bob")] demo_state1
                (snd (add_client_main [(PInt 5, PStr "Bob")] demo_state1))
                [(PInt 5, PStr "Alice")] (PInt 5) eq_refl eq_refl eq_refl) as [d' [E L]].
    exists d'. split; [exact E | exact L].
  - apply (proj2 add_client_last_write_wins demo_state
             (snd (add_client_main [(PInt 5, PStr "Alice")] demo_state))); reflexivity.
Defined.


Lemma mutations_persist_immediately_witness :
  persisted (snd (set_bot_token (PStr "456:def") demo_state)) /\
  persisted (snd (add_client_main [(PInt 5, PStr "Alice")] demo_state)) /\
  persisted (snd (add_client_bot (Some [(PInt 5, PStr "Alice")]) demo_state)) /\
  persisted (snd (handle_passwd "30741852" (mk_message 11 "Bob" "30741852") demo_state)) /\
  persisted (snd (register_client_main demo_state)).
Proof.
  destruct mutations_persist_immediately as [H1 [H2 [H3 [H4 H5]]]].
  split; [apply (H1 (PStr "456:def") demo_state); vm_compute; reflexivity |].
  split; [apply (H2 [(PInt 5, PStr "Alice")] demo_state); vm_compute; reflexivity |].
  split; [apply (H3 (Some [(PInt 5, PStr "Alice")]) demo_state); vm_compute; reflexivity |].
  split; [apply (H4 "30741852"%string (mk_message 11 "Bob" "30741852") demo_state);
          vm_compute; reflexivity |].
  apply (H5 demo_state); vm_compute; reflexivity.
Defined.

(** ** Further properties of the code *)

Lemma path_eqb_eq : forall p q, path_eqb p q = true -> p = q.
Proof.
  induction p as [| a p IH]; destruct q as [| b q]; simpl; intros H; try discriminate; auto.
  apply andb_true_iff in H as [H1 H2]. apply String.eqb_eq in H1. subst. f_equal. auto.
Qed.

Lemma fs_lookup_in : forall f p e, fs_lookup f p = Some e -> In (p, e) f.
Proof.
  induction f as [| [q e'] f IH]; simpl; intros p e H; [discriminate |].
  destruct (path_eqb p q) eqn:E.
  - inversion H; subst. apply path_eqb_eq in E. subst. now left.
  - right. auto.
Qed.

Lemma fs_wfb_spec : forall f p e, fs_wfb f = true -> fs_lookup f p = Some e ->
  Forall (fun q => fs_lookup f q = Some Dir) (ancestors [] p).
Proof.
  intros f p e Hw Hl. apply fs_lookup_in in Hl.
  unfold fs_wfb in Hw. rewrite forallb_forall in Hw.
  specialize (Hw _ Hl). simpl in Hw. rewrite forallb_forall in Hw.
  apply Forall_forall. intros q Hq. specialize (Hw q Hq).
  destruct (fs_lookup f q) as [[|]|]; simpl in Hw; congruence.
Qed.

Lemma fs_lookup_set_len : forall f p q e,
  List.length q <> List.length p -> fs_lookup (fs_set f p e) q = fs_lookup f q.
Proof.
  intros f p q e H. rewrite fs_lookup_set.
  destruct (path_eqb q p) eqn:E; [| reflexivity].
  apply path_eqb_length in E. contradiction.
Qed.

Lemma ancestors_shape : forall rest acc q, In q (ancestors acc rest) ->
  exists pre c post, rest = pre ++ c :: post /\ post <> [] /\ q = acc ++ pre ++ [c].
Proof.
  induction rest as [| c rest IH]; intros acc q H; [destruct H |].
  destruct rest as [| c' r]; [destruct H |].
  destruct H as [<- | H].
  - exists [], c, (c' :: r). split; [reflexivity |]. split; [discriminate | reflexivity].
  - destruct (IH _ _ H) as [pre [c0 [post [E [Hp ->]]]]].
    exists (c :: pre), c0, post. rewrite E. split; [reflexivity |]. split; [exact Hp |].
    rewrite <- app_assoc. reflexivity.
Qed.

Lemma ancestors_length : forall rest acc q, In q (ancestors acc rest) ->
  (List.length acc < List.length q)%nat /\
  (List.length q < List.length acc + List.length rest)%nat.
Proof.
  intros rest acc q H. destruct (ancestors_shape _ _ _ H) as [pre [c [post [-> [Hp ->]]]]].
  rewrite !length_app. simpl. destruct post; [contradiction |]. simpl. lia.
Qed.

Lemma ancestors_snoc : forall rest acc x, rest <> [] ->
  ancestors acc (rest ++ [x]) = ancestors acc rest ++ [acc ++ rest].
Proof.
  induction rest as [| c r IH]; intros acc x H; [contradiction |].
  destruct r as [| c' r'].
  - reflexivity.
  - change (ancestors acc ((c :: c' :: r') ++ [x]))
      with ((acc ++ [c]) :: ancestors (acc ++ [c]) ((c' :: r') ++ [x])).
    rewrite IH by discriminate.
    replace ((acc ++ [c]) ++ c' :: r') with (acc ++ c :: c' :: r')
      by (rewrite <- app_assoc; reflexivity).
    reflexivity.
Qed.

Lemma resolve_parents_dirs : forall rest acc f,
  Forall (fun q => fs_lookup f q = Some Dir) (ancestors acc rest) ->
  resolve_parents f acc rest = Ok tt.
Proof.
  induction rest as [| c rest IH]; intros acc f H; [reflexivity |].
  destruct rest as [| c' r]; [reflexivity |].
  inversion H as [| ? ? Hc Hr]; subst.
  cbn [resolve_parents]. rewrite Hc. exact (IH _ _ Hr).
Qed.

Lemma resolve_parents_cases : forall rest acc f,
  forallb (fun q => negb (entry_is_file (fs_lookup f q))) (ancestors acc rest) = true ->
  resolve_parents f acc rest = Ok tt \/ resolve_parents f acc rest = Err FileNotFoundError.
Proof.
  induction rest as [| c rest IH]; intros acc f H; [now left |].
  destruct rest as [| c' r]; [now left |].
  simpl in H. apply andb_true_iff in H as [Hc Hr].
  cbn [resolve_parents].
  destruct (fs_lookup f (acc ++ [c])) as [[b |] |]; simpl in Hc; try discriminate.
  - exact (IH _ _ Hr).
  - now right.
Qed.

Lemma fs_grows_refl : forall f, fs_grows f f.
Proof. intros f q. now left. Qed.

Lemma fs_grows_trans : forall f1 f2 f3, fs_grows f1 f2 -> fs_grows f2 f3 -> fs_grows f1 f3.
Proof.
  intros f1 f2 f3 H12 H23 q.
  destruct (H12 q) as [E1 | [N1 D1]], (H23 q) as [E2 | [N2 D2]].
  - left. congruence.
  - right. split; congruence.
  - right. split; congruence.
  - congruence.
Qed.

Lemma fs_grows_set_dir : forall f p, fs_lookup f p = None -> fs_grows f (fs_set f p Dir).
Proof.
  intros f p H q. rewrite fs_lookup_set.
  destruct (path_eqb q p) eqn:E; [| now left].
  apply path_eqb_eq in E. subst. right. split; [exact H | reflexivity].
Qed.

Lemma fs_grows_dir : forall f f' q, fs_grows f f' -> fs_lookup f q = Some Dir ->
  fs_lookup f' q = Some Dir.
Proof. intros f f' q H Hq. destruct (H q) as [E | [N _]]; congruence. Qed.

Lemma makedirs_walk_grows : forall rest acc f r f',
  makedirs_walk acc rest f = (r, f') -> fs_grows f f'.
Proof.
  induction rest as [| c rest IH]; intros acc f r f' H.
  - inversion H; subst. apply fs_grows_refl.
  - destruct rest as [| c' rs].
    + cbn in H. destruct (fs_lookup f (acc ++ [c])) eqn:L; inversion H; subst.
      * apply fs_grows_refl.
      * apply fs_grows_set_dir. exact L.
    + cbn [makedirs_walk] in H.
      destruct (fs_lookup f (acc ++ [c])) as [[b |] |] eqn:L.
      * inversion H; subst. apply fs_grows_refl.
      * exact (IH _ _ _ _ H).
      * apply fs_grows_trans with (fs_set f (acc ++ [c]) Dir).
        -- apply fs_grows_set_dir. exact L.
        -- exact (IH _ _ _ _ H).
Qed.

Lemma makedirs_grows : forall d f r f', makedirs d f = (r, f') -> fs_grows f f'.
Proof.
  intros [| c d] f r f' H.
  - inversion H; subst. apply fs_grows_refl.
  - exact (makedirs_walk_grows _ _ _ _ _ H).
Qed.

Lemma makedirs_walk_ok : forall rest acc f, rest <> [] ->
  forallb (fun q => negb (entry_is_file (fs_lookup f q))) (ancestors acc rest) = true ->
  fs_lookup f (acc ++ rest) = None ->
  exists f', makedirs_walk acc rest f = (Ok tt, f') /\
    Forall (fun q => fs_lookup f' q = Some Dir) (ancestors acc rest ++ [acc ++ rest]) /\
    (forall q, (List.length acc + List.length rest < List.length q)%nat ->
               fs_lookup f' q = fs_lookup f q).
Proof.
  induction rest as [| c rest IH]; intros acc f Hne Hnf Hn; [contradiction |].
  destruct rest as [| c' r].
  - cbn [makedirs_walk]. rewrite Hn. eexists. split; [reflexivity |]. split.
    + cbn [ancestors app]. constructor; [| constructor].
      rewrite fs_lookup_set, path_eqb_refl. reflexivity.
    + intros q Hq. apply fs_lookup_set_len. rewrite length_app. simpl in *. lia.
  - simpl in Hnf. apply andb_true_iff in Hnf as [Hc Hr].
    assert (Hlen : forall q, In q (ancestors (acc ++ [c]) (c' :: r)) ->
              List.length q <> List.length (acc ++ [c])).
    { intros q Hq. apply ancestors_length in Hq. lia. }
    assert (Hfull : (acc ++ [c]) ++ c' :: r = acc ++ c :: c' :: r)
      by (rewrite <- app_assoc; reflexivity).
    cbn [makedirs_walk].
    destruct (fs_lookup f (acc ++ [c])) as [[b |] |] eqn:L; simpl in Hc; try discriminate.
    + destruct (IH (acc ++ [c]) f ltac:(discriminate) Hr ltac:(rewrite Hfull; exact Hn))
        as [f' [E [Hd Hl]]].
      exists f'. split; [exact E |]. split.
      * simpl. constructor.
        -- apply (fs_grows_dir f f'); [exact (makedirs_walk_grows _ _ _ _ _ E) | exact L].
        -- rewrite Hfull in Hd. exact Hd.
      * intros q Hq. apply Hl. rewrite length_app in *. simpl in *. lia.
    + set (f1 := fs_set f (acc ++ [c]) Dir).
      assert (Hr1 : forallb (fun q => negb (entry_is_file (fs_lookup f1 q)))
                      (ancestors (acc ++ [c]) (c' :: r)) = true).
      { rewrite forallb_forall in Hr |- *. intros q Hq.
        unfold f1. rewrite fs_lookup_set_len by exact (Hlen q Hq). exact (Hr q Hq). }
      assert (Hn1 : fs_lookup f1 ((acc ++ [c]) ++ c' :: r) = None).
      { unfold f1. rewrite fs_lookup_set_len, Hfull; [exact Hn |].
        rewrite !length_app. simpl. lia. }
      destruct (IH (acc ++ [c]) f1 ltac:(discriminate) Hr1 Hn1) as [f' [E [Hd Hl]]].
      exists f'. split; [exact E |]. split.
      * simpl. constructor.
        -- apply (fs_grows_dir f1 f'); [exact (makedirs_walk_grows _ _ _ _ _ E) |].
           unfold f1. rewrite fs_lookup_set, path_eqb_refl. reflexivity.
        -- rewrite Hfull in Hd. exact Hd.
      * intros q Hq. rewrite Hl by (rewrite length_app in *; simpl in *; lia).
        unfold f1. apply fs_lookup_set_len. rewrite length_app in *. simpl in *. lia.
Qed.

Lemma open_write_frame : forall b p f r f',
  open_write b p f = (r, f') -> forall q, path_eqb q p = false -> fs_lookup f' q = fs_lookup f q.
Proof.
  intros b p f r f' H q Hq. unfold open_write in H.
  destruct (resolve_parents f [] p) as [[] | e |];
    [destruct (fs_lookup f p) as [[|]|] | |]; inversion H; subst; try reflexivity;
    rewrite fs_lookup_set, Hq; reflexivity.
Qed.

(** X1 ([Config.write_config]): on a well-formed file system where no
    ancestor of the config path is a regular file and the path itself is
    not a directory, [write_config] succeeds, creating the missing parent
    directories, and the file then holds the pickled config. *)
Theorem write_config_creates_parents : forall c f,
  fs_wfb f = true ->
  no_file_ancestor f (filepath c) = true ->
  entry_is_dir (fs_lookup f (filepath c)) = false ->
  exists f', write_config c f = (Ok tt, f') /\
    open_read f' (filepath c) = Ok (pickle_dumps (config_dict c)).
Proof.
  intros c f Hwf Hnf Hnd. unfold write_config.
  set (data := pickle_dumps (config_dict c)). set (p := filepath c) in *.
  destruct (resolve_parents_cases p [] f Hnf) as [R | R].
  - assert (E : open_write data p f = (Ok tt, fs_set f p (File data))).
    { unfold open_write. rewrite R.
      destruct (fs_lookup f p) as [[|]|]; simpl in Hnd; try discriminate; reflexivity. }
    rewrite E. eexists. split; [reflexivity |]. exact (open_write_then_read _ _ _ _ E).
  - assert (E : open_write data p f = (Err FileNotFoundError, f))
      by (unfold open_write; rewrite R; reflexivity).
    rewrite E.
    destruct p as [| x0 p0] eqn:Ep; [discriminate |].
    destruct (exists_last (l := x0 :: p0) ltac:(discriminate)) as [pp [x Epp]].
    rewrite Epp in *. clear x0 p0 Ep Epp.
    destruct pp as [| y pp'] eqn:Epp0; [discriminate |]. rewrite <- Epp0 in *.
    assert (Hanc : ancestors [] (pp ++ [x]) = ancestors [] pp ++ [pp])
      by (rewrite ancestors_snoc by (subst; discriminate); reflexivity).
    unfold no_file_ancestor in Hnf. rewrite Hanc, forallb_app in Hnf.
    apply andb_true_iff in Hnf as [Hnf1 Hnf2]. simpl in Hnf2.
    rewrite andb_true_r in Hnf2.
    assert (Hpp : fs_lookup f pp = None).
    { destruct (fs_lookup f pp) as [[b |] |] eqn:L; simpl in Hnf2; try discriminate;
        [| reflexivity].
      exfalso. pose proof (fs_wfb_spec f pp Dir Hwf L) as Hd.
      assert (Ok tt = Err FileNotFoundError :> result unit); [| discriminate].
      rewrite <- R. symmetry. apply resolve_parents_dirs. rewrite Hanc.
      apply Forall_app. split; [exact Hd | constructor; [exact L | constructor]]. }
    unfold parent. rewrite removelast_last.
    assert (Em : makedirs pp = makedirs_walk [] pp) by (rewrite Epp0; reflexivity).
    unfold bind. rewrite Em.
    destruct (makedirs_walk_ok pp [] f ltac:(subst; discriminate) Hnf1 Hpp)
      as [f2 [Ew [Hd Hl]]].
    rewrite Ew.
    assert (E2 : open_write data (pp ++ [x]) f2 = (Ok tt, fs_set f2 (pp ++ [x]) (File data))).
    { unfold open_write. rewrite resolve_parents_dirs by (rewrite Hanc; exact Hd).
      rewrite Hl by (rewrite length_app; simpl; lia).
      destruct (fs_lookup f (pp ++ [x])) as [[|]|]; simpl in Hnd; try discriminate;
        reflexivity. }
    rewrite E2. eexists. split; [reflexivity |]. exact (open_write_then_read _ _ _ _ E2).
Qed.

(** X2 ([Config.write_config]): whatever its outcome, [write_config]
    changes no path other than the config path, except by creating
    directories where nothing existed. *)
Theorem write_config_frame : forall c f r f' q,
  write_config c f = (r, f') -> path_eqb q (filepath c) = false ->
  fs_lookup f' q = fs_lookup f q \/ (fs_lookup f q = None /\ fs_lookup f' q = Some Dir).
Proof.
  intros c f r f' q H Hq. unfold write_config in H.
  destruct (open_write (pickle_dumps (config_dict c)) (filepath c) f) as [r1 f1] eqn:E1.
  assert (F1 := open_write_frame _ _ _ _ _ E1 q Hq).
  destruct r1 as [| [] |]; try (inversion H; subst; now left).
  unfold bind in H.
  destruct (makedirs (parent (filepath c)) f1) as [r2 f2] eqn:E2.
  assert (G := makedirs_grows _ _ _ _ E2 q).
  destruct r2 as [[] | e |]; inversion H; subst.
  - rewrite (open_write_frame _ _ _ _ _ H q Hq). rewrite <- F1. exact G.
  - rewrite <- F1. exact G.
  - rewrite <- F1. exact G.
Qed.

Lemma send_each_ok : forall msg pm ids s,
  forallb (fun c => negb (existsb (py_key_eq c) (st_unreachable s))) ids = true ->
  exists s', send_each ids msg pm s = (Ok tt, s') /\
    st_calls s' = st_calls s ++ map (fun c => SendMessage c msg pm true) ids /\
    st_config s' = st_config s /\ st_fs s' = st_fs s.
Proof.
  intros msg pm. induction ids as [| c ids IH]; intros s H.
  - exists s. split; [reflexivity |]. rewrite app_nil_r. auto.
  - simpl in H. apply andb_true_iff in H as [Hc Hr].
    apply negb_true_iff in Hc.
    destruct (IH (add_call s (SendMessage c msg pm true)) Hr) as [s' [E [Ec [Eg Ef]]]].
    exists s'. split.
    + cbn [send_each]. unfold bind, bot_send. rewrite Hc. exact E.
    + rewrite Ec, Eg, Ef. simpl. rewrite <- app_assoc. auto.
Qed.

Lemma send_message_ok : forall msg pm arg s ids,
  py_truthy (token (st_config s)) = true ->
  ids_iter (select_ids arg (client_ids (st_config s))) = Ok ids ->
  ids <> [] ->
  forallb (fun c => negb (existsb (py_key_eq c) (st_unreachable s))) ids = true ->
  exists s', send_message msg pm arg s = (Ok tt, s') /\
    st_calls s' = st_calls s ++ map (fun c => SendMessage c msg pm true) ids /\
    st_config s' = st_config s /\ st_fs s' = st_fs s.
Proof.
  intros msg pm arg s ids Ht Hids Hne Hr.
  assert (Htr : ids_truthy (select_ids arg (client_ids (st_config s))) = true).
  { destruct ids as [| y l]; [contradiction |]. eapply ids_iter_nonempty_truthy. exact Hids. }
  unfold send_message, bind, get, lift_result. cbn beta iota.
  rewrite Ht, Htr. cbn beta iota. rewrite Hids. cbn beta iota.
  exact (send_each_ok msg pm ids s Hr).
Qed.

(** X8 ([send_message]): with a token, no (or an empty) explicit id list
    and a non-empty registry dict whose chats are all reachable, one
    message is delivered to every registered chat, in registry order, and
    neither the config nor the file system changes. *)
Theorem send_message_broadcasts_registry : forall msg pm arg s d,
  py_truthy (token (st_config s)) = true ->
  match arg with Some (_ :: _) => false | _ => true end = true ->
  client_ids (st_config s) = PDict d ->
  py_truthy (PDict d) = true ->
  forallb (fun c => negb (existsb (py_key_eq c) (st_unreachable s))) (map fst d) = true ->
  exists s', send_message msg pm arg s = (Ok tt, s') /\
    st_calls s' = st_calls s ++ map (fun k => SendMessage k msg pm true) (map fst d) /\
    st_config s' = st_config s /\ st_fs s' = st_fs s.
Proof.
  intros msg pm arg s d Ht Harg Hd Hne Hr.
  apply send_message_ok; try assumption.
  - rewrite Hd. destruct arg as [[| z l] |]; try discriminate; reflexivity.
  - destruct d; [discriminate |]. discriminate.
Qed.

(** X9 ([send_message]): a non-empty explicit id list is used instead of
    the registry, whatever the registry holds (even a non-dict): each
    listed id gets the message, in list order. *)
Theorem send_message_explicit_ids : forall msg pm s z l,
  py_truthy (token (st_config s)) = true ->
  forallb (fun c => negb (existsb (py_key_eq c) (st_unreachable s))) (map PInt (z :: l)) = true ->
  exists s', send_message msg pm (Some (z :: l)) s = (Ok tt, s') /\
    st_calls s' = st_calls s ++ map (fun c => SendMessage (PInt c) msg pm true) (z :: l) /\
    st_config s' = st_config s /\ st_fs s' = st_fs s.
Proof.
  intros msg pm s z l Ht Hr.
  destruct (send_message_ok msg pm (Some (z :: l)) s (map PInt (z :: l)) Ht eq_refl
              ltac:(discriminate) Hr) as [s' [E [Ec Eo]]].
  exists s'. split; [exact E |]. split; [| exact Eo].
  rewrite Ec, map_map. reflexivity.
Qed.

(** X10 ([TelegramHandler.emit]): with a token and a non-empty
    registry of reachable chats, emitting a formatted record sends that
    text, without parse mode, to every registered chat. *)
Theorem emit_broadcasts_record : forall t s d,
  py_truthy (token (st_config s)) = true ->
  client_ids (st_config s) = PDict d -> py_truthy (PDict d) = true ->
  forallb (fun c => negb (existsb (py_key_eq c) (st_unreachable s))) (map fst d) = true ->
  exists s', emit t s = (Ok tt, s') /\
    st_calls s' = st_calls s ++ map (fun k => SendMessage k t None true) (map fst d).
Proof.
  intros t s d Ht Hd Hne Hr.
  assert (Hids : ids_iter (select_ids None (client_ids (st_config s))) = Ok (map fst d))
    by (rewrite Hd; reflexivity).
  destruct (send_message_ok t None None s (map fst d) Ht Hids
              ltac:(destruct d; discriminate) Hr) as [s' [E [Ec _]]].
  exists s'. split; [exact E | exact Ec].
Qed.

(** X3 ([Config.__init__]): loading a file that holds a pickled dict
    takes the token and the registry from its keys ["token"] and
    ["client_ids"], each [None] when the key is missing. *)
Theorem config_load_pickled_dict : forall f p d,
  py_wf (PDict d) = true ->
  open_read f p = Ok (pickle_dumps (PDict d)) ->
  config_load f p = Ok (mk_config p (dict_get d (PStr "token")) (dict_get d (PStr "client_ids"))).
Proof.
  intros f p d Hwf Hr. unfold config_load. rewrite Hr, pickle_roundtrip by exact Hwf.
  reflexivity.
Qed.

(** X4 ([Config.__init__]): loading a file that holds a pickled value other
    than a dict fails with [AttributeError] (from [config.get]); the
    error is not turned into [ConfigError]. *)
Theorem config_load_non_dict : forall f p v,
  py_wf v = true ->
  match v with PDict _ => false | _ => true end = true ->
  open_read f p = Ok (pickle_dumps v) ->
  config_load f p = Err AttributeError.
Proof.
  intros f p v Hwf Hv Hr. unfold config_load. rewrite Hr, pickle_roundtrip by exact Hwf.
  destruct v; try discriminate; reflexivity.
Qed.

(* reload *)

Lemma dict_set_keys : forall d k v kv, In kv (dict_set d k v) ->
  (exists x, In (fst kv, x) d) \/ fst kv = k.
Proof.
  induction d as [| [k0 v0] d IH]; intros k v kv H; simpl in H.
  - destruct H as [<- | []]. now right.
  - destruct (py_key_eq k k0).
    + destruct H as [<- | H].
      * left. exists v0. now left.
      * left. exists (snd kv). right. destruct kv. exact H.
    + destruct H as [<- | H].
      * left. exists v0. now left.
      * destruct (IH _ _ _ H) as [[x Hx] | E]; [left; exists x; now right | now right].
Qed.

Lemma py_wf_dict_cons : forall k v d,
  py_wf (PDict ((k, v) :: d)) =
  forallb (fun kv => negb (py_key_eq k (fst kv))) d && py_hashable k && py_wf v &&
  py_wf (PDict d).
Proof.
  intros k v d. simpl.
  destruct (forallb (fun kv => negb (py_key_eq k (fst kv))) d), (keys_distinct d),
    (py_hashable k), (py_wf v); reflexivity.
Qed.

Lemma py_wf_dict_set : forall d k v,
  py_wf (PDict d) = true -> py_hashable k = true -> py_wf v = true ->
  py_wf (PDict (dict_set d k v)) = true.
Proof.
  induction d as [| [k0 v0] d IH]; intros k v Hd Hk Hv.
  - simpl. rewrite Hk, Hv. reflexivity.
  - rewrite py_wf_dict_cons in Hd.
    apply andb_true_iff in Hd as [Hd Hw]. apply andb_true_iff in Hd as [Hd Hv0].
    apply andb_true_iff in Hd as [Hf Hk0].
    simpl dict_set. destruct (py_key_eq k k0) eqn:E.
    + rewrite py_wf_dict_cons, Hf, Hk0, Hv, Hw. reflexivity.
    + rewrite py_wf_dict_cons, Hk0, Hv0, (IH k v Hw Hk Hv), !andb_true_r.
      apply forallb_forall. intros kv Hin.
      destruct (dict_set_keys _ _ _ _ Hin) as [[x Hx] | Ek].
      * exact (proj1 (forallb_forall _ d) Hf _ Hx).
      * rewrite Ek, py_key_eq_sym, E. reflexivity.
Qed.

Lemma py_wf_dict_update : forall c d,
  py_wf (PDict d) = true -> py_wf (PDict c) = true -> py_wf (PDict (dict_update d c)) = true.
Proof.
  unfold dict_update.
  induction c as [| [k v] c IH]; intros d Hd Hc; [exact Hd |].
  rewrite py_wf_dict_cons in Hc.
  apply andb_true_iff in Hc as [Hc Hw]. apply andb_true_iff in Hc as [Hc Hv].
  apply andb_true_iff in Hc as [_ Hk].
  simpl. apply IH; [apply py_wf_dict_set |]; assumption.
Qed.

Lemma config_load_persisted : forall f c,
  open_read f (filepath c) = Ok (pickle_dumps (config_dict c)) ->
  py_wf (token c) = true -> py_wf (client_ids c) = true ->
  config_load f (filepath c) = Ok c.
Proof.
  intros f [p t v] Hr Ht Hv. simpl in *. unfold config_load. rewrite Hr.
  rewrite pickle_roundtrip by (simpl; rewrite Ht, Hv; reflexivity).
  reflexivity.
Qed.

Lemma set_bot_token_run : forall tok s s',
  set_bot_token tok s = (Ok tt, s') ->
  st_config s' = with_token (st_config s) (if py_truthy tok then tok else PStr (st_input s)) /\
  persisted s'.
Proof.
  intros tok s s' H. unfold set_bot_token, bind at 1, get in H. cbn beta iota in H.
  unfold bind, put in H. cbn beta iota in H. split.
  - rewrite (write_config_st_config _ _ _ H). reflexivity.
  - exact (write_config_st_persisted _ _ H).
Qed.

Lemma add_client_main_run : forall c s s' d,
  client_ids (st_config s) = PDict d ->
  add_client_main c s = (Ok tt, s') ->
  st_config s' = with_client_ids (st_config s) (PDict (dict_update d c)) /\ persisted s'.
Proof.
  intros c s s' d Hd H.
  unfold add_client_main, update_client_ids, bind at 1, bind at 1, get in H.
  cbn beta iota in H. rewrite Hd in H. unfold put in H. cbn beta iota in H. split.
  - rewrite (write_config_st_config _ _ _ H). reflexivity.
  - exact (write_config_st_persisted _ _ H).
Qed.

(** X5 ([set_bot_token]): after a successful [set_bot_token(tok)], a
    fresh [Config] on the same path reads back the new token ([tok], or
    the line typed at the prompt when [tok] is falsy) and the unchanged
    registry. *)
Theorem set_bot_token_reload : forall tok s s',
  py_wf tok = true -> py_wf (client_ids (st_config s)) = true ->
  set_bot_token tok s = (Ok tt, s') ->
  config_load (st_fs s') (filepath (st_config s)) =
    Ok (mk_config (filepath (st_config s))
          (if py_truthy tok then tok else PStr (st_input s)) (client_ids (st_config s))).
Proof.
  intros tok s s' Hwt Hwc H.
  destruct (set_bot_token_run _ _ _ H) as [Ec Hp]. unfold persisted in Hp.
  rewrite Ec in Hp. apply config_load_persisted in Hp; [exact Hp | |]; simpl.
  + destruct (py_truthy tok); [exact Hwt | reflexivity].
  + exact Hwc.
Qed.

(** X6 ([add_client] of main.py): after a successful [add_client(c)] on a
    dict registry [d], a fresh [Config] on the same path reads back the
    token and [d] updated with [c]. *)
Theorem add_client_reload : forall c s s' d,
  py_wf (token (st_config s)) = true ->
  client_ids (st_config s) = PDict d -> py_wf (PDict d) = true -> py_wf (PDict c) = true ->
  add_client_main c s = (Ok tt, s') ->
  config_load (st_fs s') (filepath (st_config s)) =
    Ok (mk_config (filepath (st_config s)) (token (st_config s)) (PDict (dict_update d c))).
Proof.
  intros c s s' d Hwt Hd Hwd Hwc H.
  destruct (add_client_main_run _ _ _ _ Hd H) as [Ec Hp]. unfold persisted in Hp.
  rewrite Ec in Hp. apply config_load_persisted in Hp; [exact Hp | exact Hwt |].
  simpl. apply py_wf_dict_update; assumption.
Qed.

Lemma bind_ok_eq : forall {S A B} (m : ST S A) (k : A -> ST S B) s a s1,
  m s = (Ok a, s1) -> bind m k s = k a s1.
Proof. intros S A B m k s a s1 H. unfold bind. rewrite H. reflexivity. Qed.

Lemma bind_err_eq : forall {S A B} (m : ST S A) (k : A -> ST S B) s e s1,
  m s = (Err e, s1) -> bind m k s = (Err e, s1).
Proof. intros S A B m k s e s1 H. unfold bind. rewrite H. reflexivity. Qed.

Lemma gen_password_eq : forall s,
  gen_password s =
  (Ok (String.concat "" (map (fun i => py_str_int (st_rand s i mod 10)) (seq (st_rpos s) 8))),
   set_rpos s (st_rpos s + 8)).
Proof. intros s. unfold gen_password, bind. rewrite draw_digits_run. reflexivity. Qed.

Lemma add_client_bot_falsy_b : forall c,
  match c with Some (_ :: _) => false | _ => true end = true ->
  add_client_bot c = register_client_bot.
Proof. intros [[| kv d] |] H; [reflexivity | discriminate | reflexivity]. Qed.

Lemma get_message_bot_err : forall f s,
  py_truthy (client_ids (st_config s)) = false ->
  get_message_bot f s =
  (Err (if py_truthy (token (st_config s)) then NoClientIdsError else NoTokenError), s).
Proof.
  intros f s H. unfold get_message_bot, bind, get, raise. cbn beta iota.
  destruct (py_truthy (token (st_config s))); cbn; [rewrite H |]; reflexivity.
Qed.

Lemma register_client_bot_no_clients : forall s,
  py_truthy (client_ids (st_config s)) = false ->
  register_client_bot s =
  (Err (if py_truthy (token (st_config s)) then NoClientIdsError else NoTokenError),
   set_rpos s (st_rpos s + 8)).
Proof.
  intros s Hr. rewrite <- register_client_bot_unfold.
  rewrite (bind_ok_eq _ _ _ _ _ (gen_password_eq s)). cbn beta.
  rewrite (bind_err_eq _ _ _ _ _ (get_message_bot_err _ (set_rpos s (st_rpos s + 8)) Hr)).
  reflexivity.
Qed.

Lemma set_bot_token_eq : forall tok s f',
  write_config (with_token (st_config s) (if py_truthy tok then tok else PStr (st_input s)))
    (st_fs s) = (Ok tt, f') ->
  set_bot_token tok s =
  (Ok tt, set_fs (set_config s (with_token (st_config s)
                                  (if py_truthy tok then tok else PStr (st_input s)))) f').
Proof.
  intros tok s f' H. unfold set_bot_token, bind, get, put. cbn beta iota.
  unfold write_config_st, bind, get, on_fs. cbn [st_config st_fs set_config].
  rewrite H. reflexivity.
Qed.

(** X11 ([add_client] of telegram_bot.py): [add_client()] with a falsy
    client on an empty (or otherwise falsy) registry draws the password
    and then raises [NoClientIdsError] ([NoTokenError] without a token):
    the registration flow cannot register the first client. *)
Theorem add_client_bot_empty_registry : forall c s,
  match c with Some (_ :: _) => false | _ => true end = true ->
  py_truthy (client_ids (st_config s)) = false ->
  add_client_bot c s =
  (Err (if py_truthy (token (st_config s)) then NoClientIdsError else NoTokenError),
   set_rpos s (st_rpos s + 8)).
Proof.
  intros c s Hc Hr. rewrite (add_client_bot_falsy_b c Hc).
  exact (register_client_bot_no_clients s Hr).
Qed.

(** X12 (the [__main__] block of telegram_bot.py): on a bot whose registry
    is empty, as after loading a missing config file, [set_bot_token(tok)]
    followed by [add_client()] ends in [NoClientIdsError] (in
    [NoTokenError] when both [tok] and the typed line are empty), once the
    token has been written. *)
Theorem bot_main_block_no_clients : forall tok s,
  py_truthy (client_ids (st_config s)) = false ->
  fst (write_config (with_token (st_config s) (if py_truthy tok then tok else PStr (st_input s)))
         (st_fs s)) = Ok tt ->
  fst (bot_main_block tok s) =
  Err (if py_truthy (if py_truthy tok then tok else PStr (st_input s))
       then NoClientIdsError else NoTokenError).
Proof.
  intros tok s Hr Hw.
  destruct (write_config _ (st_fs s)) as [rw f'] eqn:Ew. cbn [fst] in Hw. subst rw.
  unfold bot_main_block. rewrite (bind_ok_eq _ _ _ _ _ (set_bot_token_eq tok s f' Ew)).
  cbn beta. cbn [add_client_bot].
  rewrite register_client_bot_no_clients by exact Hr. reflexivity.
Qed.

(* ---- the registry of telegram_bot.py only loses or keeps keys ---- *)

Lemma keys_within_refl : forall v, keys_within v v.
Proof. intros v k H. exact H. Qed.

Lemma keys_within_trans : forall a b c, keys_within a b -> keys_within b c -> keys_within a c.
Proof. intros a b c H1 H2 k H. auto. Qed.

Lemma dict_lookup_key_eq : forall d a b, py_key_eq a b = true -> dict_lookup d a = dict_lookup d b.
Proof.
  induction d as [| [k v] d IH]; intros a b H; simpl; [reflexivity |].
  pose proof (py_key_eq_trans a b k H) as T.
  rewrite (py_key_eq_sym a k), (py_key_eq_sym b k), T.
  destruct (py_key_eq k b); [reflexivity | auto].
Qed.

Lemma keys_within_set : forall d k v,
  py_in k (PDict d) = Ok true -> keys_within (PDict d) (PDict (dict_set d k v)).
Proof.
  intros d k v Hk k' H. unfold py_in in *. rewrite dict_lookup_set in H.
  destruct (py_key_eq k' k) eqn:E; [| exact H].
  rewrite (dict_lookup_key_eq d k' k E). exact Hk.
Qed.

Lemma handle_passwd_step : forall pw m s r s1,
  handle_passwd pw m s = (r, s1) -> registry_step m (st_config s) (st_config s1).
Proof.
  intros pw m s r s1 H. unfold handle_passwd in H.
  destruct (String.eqb (text m) pw).
  - unfold bind at 1 in H.
    destruct (update_client_ids [(PInt (chat_id m), PStr (chat_full_name m))] s)
      as [r1 s2] eqn:EU.
    unfold update_client_ids, bind, get, put, raise in EU. cbn beta iota in EU.
    destruct (client_ids (st_config s)) eqn:Ec; inversion EU; subst;
      try (inversion H; subst; now left).
    right. exists items. split; [assumption |].
    unfold bind in H.
    destruct (write_config_st _) as [r3 s3] eqn:EW.
    apply write_config_st_config in EW.
    destruct r3 as [[] | e |]; unfold ret in H; inversion H; subst; rewrite EW; reflexivity.
  - unfold ret in H. inversion H; subst. now left.
Qed.

Lemma handle_msg_main_step : forall f m s r s1,
  (forall s r s1, f m s = (r, s1) -> registry_step m (st_config s) (st_config s1)) ->
  handle_msg_main f m s = (r, s1) -> registry_step m (st_config s) (st_config s1).
Proof.
  intros f m s r s1 Hf H. unfold handle_msg_main, bind, chat_data_update in H.
  cbn beta iota zeta in H.
  set (s0 := set_session s _ _) in H.
  destruct (f m s0) as [[v | e |] s2] eqn:E; apply Hf in E; change (st_config s0) with (st_config s) in E.
  - destruct (py_is_False v); unfold reply_text, raise_sigterm, ret in H; cbn in H;
      inversion H; subst; exact E.
  - inversion H; subst. exact E.
  - inversion H; subst. exact E.
Qed.

Lemma handle_msg_bot_keys : forall pw m s r s1,
  handle_msg_bot (handle_passwd pw) m s = (r, s1) ->
  keys_within (client_ids (st_config s)) (client_ids (st_config s1)).
Proof.
  intros pw m s r s1 H. unfold handle_msg_bot, bind at 1, get in H. cbn beta iota in H.
  unfold bind at 1, lift_result in H.
  destruct (py_in (PInt (chat_id m)) (client_ids (st_config s))) as [[] | e |] eqn:Ein.
  - cbn [negb] in H. apply handle_msg_main_step in H; [| exact (handle_passwd_step pw m)].
    destruct H as [-> | [d [Hd ->]]]; [apply keys_within_refl |].
    simpl. rewrite Hd. rewrite Hd in Ein. apply keys_within_set. exact Ein.
  - cbn [negb] in H. unfold ret in H. inversion H; subst. apply keys_within_refl.
  - inversion H; subst. apply keys_within_refl.
  - inversion H; subst. apply keys_within_refl.
Qed.

Lemma poll_keys : forall n h s r s',
  (forall m s r s1, h m s = (r, s1) ->
     keys_within (client_ids (st_config s)) (client_ids (st_config s1))) ->
  poll n h s = (r, s') -> keys_within (client_ids (st_config s)) (client_ids (st_config s')).
Proof.
  induction n as [| n IH]; intros h s r s' Hh H; simpl in H.
  - inversion H; subst. apply keys_within_refl.
  - destruct (st_inbox s) as [| m rest]; [inversion H; subst; apply keys_within_refl |].
    destruct (h m (set_inbox s rest)) as [r1 s1] eqn:E.
    apply Hh in E. change (st_config (set_inbox s rest)) with (st_config s) in E.
    destruct (st_sigterm s1).
    + inversion H; subst. exact E.
    + exact (keys_within_trans _ _ _ E (IH h s1 r s' Hh H)).
Qed.

Lemma listen_session_keys : forall h s r s',
  (forall m s r s1, h m s = (r, s1) ->
     keys_within (client_ids (st_config s)) (client_ids (st_config s1))) ->
  listen_session h s = (r, s') -> keys_within (client_ids (st_config s)) (client_ids (st_config s')).
Proof.
  intros h s r s' Hh H. unfold listen_session, bind in H.
  destruct (poll _ h (set_session s [] false)) as [r1 s1] eqn:E.
  apply (poll_keys _ h _ r1 s1 Hh) in E.
  destruct r1; unfold get, ret in H; inversion H; subst; exact E.
Qed.

Lemma get_message_bot_state : forall f s r s',
  get_message_bot f s = (r, s') -> s' = s.
Proof.
  intros f s r s' H. unfold get_message_bot, bind, get, raise, ret in H.
  destruct (py_truthy (token (st_config s))), (py_truthy (client_ids (st_config s)));
    inversion H; reflexivity.
Qed.

(** X13 ([__register_client] of telegram_bot.py): registration started by
    [add_client()] never adds a chat to the registry: every key present
    afterwards was present before, because messages from unregistered
    chats are dropped before the password check. *)
Theorem bot_registration_adds_no_chat : forall c s r s' k,
  match c with Some (_ :: _) => false | _ => true end = true ->
  add_client_bot c s = (r, s') ->
  py_in k (client_ids (st_config s')) = Ok true ->
  py_in k (client_ids (st_config s)) = Ok true.
Proof.
  intros c s r s' k Hc H. revert k.
  rewrite (add_client_bot_falsy_b c Hc) in H.
  rewrite <- register_client_bot_unfold in H.
  rewrite (bind_ok_eq _ _ _ _ _ (gen_password_eq s)) in H. cbn beta in H.
  set (pw := String.concat "" _) in H. set (s1 := set_rpos s _) in H.
  change (client_ids (st_config s)) with (client_ids (st_config s1)).
  unfold bind at 1 in H.
  destruct (get_message_bot (handle_passwd pw) s1) as [[w | e |] s2] eqn:E2.
  - apply get_message_bot_ok in E2 as [-> ->].
    unfold bind in H.
    destruct (listen_session (handle_msg_bot (handle_passwd pw)) s1) as [r3 s3] eqn:E3.
    apply listen_session_keys in E3; [| exact (handle_msg_bot_keys pw)].
    destruct r3; unfold ret in H; inversion H; subst; exact E3.
  - apply get_message_bot_state in E2. inversion H; subst. apply keys_within_refl.
  - apply get_message_bot_state in E2. inversion H; subst. apply keys_within_refl.
Qed.

(* ---- sessions ---- *)

Lemma handle_msg_main_reject : forall f m s,
  (forall s0, f m s0 = (Ok (PBool false), s0)) ->
  handle_msg_main f m s =
  (Ok false, add_call (snd (chat_data_update m s)) (ReplyText (chat_id m) "Invalid!")).
Proof.
  intros f m s Hf. unfold handle_msg_main, bind.
  destruct (chat_data_update m s) as [r1 s1] eqn:E1.
  unfold chat_data_update in E1. inversion E1; subst.
  rewrite Hf. reflexivity.
Qed.

Lemma poll_reject_prefix : forall f pre rest n s,
  st_sigterm s = false -> st_inbox s = pre ++ rest -> (List.length pre <= n)%nat ->
  (forall m s0, In m pre -> f m s0 = (Ok (PBool false), s0)) ->
  exists s1, poll n (handle_msg_main f) s = poll (n - List.length pre) (handle_msg_main f) s1 /\
    st_inbox s1 = rest /\ st_sigterm s1 = false /\
    st_config s1 = st_config s /\ st_fs s1 = st_fs s /\
    st_calls s1 = st_calls s ++ map (fun m => ReplyText (chat_id m) "Invalid!") pre.
Proof.
  intros f. induction pre as [| m pre IH]; intros rest n s Hs Hi Hn Hf.
  - exists s. rewrite Nat.sub_0_r, app_nil_r. simpl in Hi. repeat split; auto.
  - destruct n as [| n]; [simpl in Hn; lia |].
    cbn [poll]. rewrite Hi. cbn [app].
    rewrite (handle_msg_main_reject f m _ (fun s0 => Hf m s0 (or_introl eq_refl))).
    cbn [snd]. simpl st_sigterm. rewrite Hs.
    destruct (IH rest n (add_call (snd (chat_data_update m (set_inbox s (pre ++ rest))))
                           (ReplyText (chat_id m) "Invalid!")))
      as [s1 [E [Ei [Es [Ec [Ef Ecl]]]]]];
      [exact Hs | reflexivity | simpl in Hn; lia | intros m' s0 Hin; apply Hf; now right |].
    exists s1. split; [exact E |]. repeat split; try assumption.
      rewrite Ecl. simpl. rewrite <- app_assoc. reflexivity.
Qed.

(** X14 ([get_message] of main.py): when the predicate returns [False] on
    every pending message, the wrapper replies ["Invalid!"] to each of
    them in order, consumes them all and keeps listening; config and
    files are untouched. *)
Theorem main_session_all_rejected : forall (pred : message -> pyval) s,
  forallb (fun m => py_is_False (pred m)) (st_inbox s) = true ->
  exists s', listen_session (handle_msg_main (fun m => @ret state _ (pred m))) s = (Pending, s') /\
    st_calls s' = st_calls s ++ map (fun m => ReplyText (chat_id m) "Invalid!") (st_inbox s) /\
    st_inbox s' = [] /\ st_config s' = st_config s /\ st_fs s' = st_fs s.
Proof.
  intros pred s H.
  assert (Hf : forall m s0, In m (st_inbox s) -> @ret state _ (pred m) s0 = (Ok (PBool false), s0)).
  { intros m s0 Hin. rewrite forallb_forall in H. specialize (H m Hin).
    unfold ret. destruct (pred m) as [| [] | | |]; try discriminate; reflexivity. }
  destruct (poll_reject_prefix (fun m => @ret state _ (pred m)) (st_inbox s) [] (List.length (st_inbox s))
              (set_session s [] false) eq_refl (eq_sym (app_nil_r _)) (le_n _) Hf)
    as [s1 [E [Ei [_ [Ec [Ef Ecl]]]]]].
  rewrite Nat.sub_diag in E.
  exists s1. split.
  - unfold listen_session, bind. cbn [st_inbox set_session]. rewrite E. reflexivity.
  - repeat split; assumption.
Qed.

Lemma handle_msg_bot_unregistered : forall f m s,
  py_in (PInt (chat_id m)) (client_ids (st_config s)) = Ok false ->
  handle_msg_bot f m s = (Ok false, s).
Proof.
  intros f m s H. unfold handle_msg_bot, bind, get, lift_result. cbn beta iota.
  rewrite H. reflexivity.
Qed.

Lemma poll_unregistered : forall f inbox n s,
  st_inbox s = inbox -> (List.length inbox <= n)%nat -> st_sigterm s = false ->
  forallb (fun m => match py_in (PInt (chat_id m)) (client_ids (st_config s)) with
                    | Ok false => true | _ => false end) inbox = true ->
  poll n (handle_msg_bot f) s = (Pending, set_inbox s []).
Proof.
  intros f. induction inbox as [| m rest IH]; intros n s Hi Hn Hs H.
  - destruct s; simpl in Hi; subst. destruct n; reflexivity.
  - destruct n as [| n]; [simpl in Hn; lia |].
    simpl in H. apply andb_true_iff in H as [Hm Hr].
    cbn [poll]. rewrite Hi.
    rewrite handle_msg_bot_unregistered
      by (simpl; destruct (py_in _ _) as [[] | |]; try discriminate; reflexivity).
    simpl st_sigterm. rewrite Hs.
    exact (IH n (set_inbox s rest) eq_refl ltac:(simpl in Hn; lia) Hs Hr).
Qed.

(** X15 ([get_message] of telegram_bot.py): when no pending message comes
    from a registered chat, the wrapper consumes them all without calling
    the predicate, replying or recording chat data, and keeps
    listening. *)
Theorem bot_session_ignores_unregistered : forall (f : message -> ST state pyval) s,
  forallb (fun m => match py_in (PInt (chat_id m)) (client_ids (st_config s)) with
                    | Ok false => true | _ => false end) (st_inbox s) = true ->
  listen_session (handle_msg_bot f) s = (Pending, set_inbox (set_session s [] false) []).
Proof.
  intros f s H. unfold listen_session, bind.
  rewrite (poll_unregistered f (st_inbox s) (List.length (st_inbox (set_session s [] false)))
             (set_session s [] false) eq_refl (le_n _) eq_refl H).
  reflexivity.
Qed.

(* ---- end-to-end registration of telegram_utils/main.py ---- *)

Lemma get_message_main_run : forall f s,
  py_truthy (token (st_config s)) = true ->
  get_message_main f s = (Ok (listen_session (handle_msg_main f)), s).
Proof.
  intros f s H. unfold get_message_main, bind, get, ret. cbn beta iota. rewrite H. reflexivity.
Qed.

Lemma handle_passwd_accept_run : forall pw m s d f',
  String.eqb (text m) pw = true -> client_ids (st_config s) = PDict d ->
  write_config (registered_config (st_config s) d m) (st_fs s) = (Ok tt, f') ->
  handle_passwd pw m s =
  (Ok (PBool true), set_fs (set_config s (registered_config (st_config s) d m)) f').
Proof.
  intros pw m s d f' He Hc Hw. unfold handle_passwd. rewrite He.
  assert (EU : update_client_ids [(PInt (chat_id m), PStr (chat_full_name m))] s =
               (Ok tt, set_config s (registered_config (st_config s) d m))).
  { unfold update_client_ids, bind, get, put. cbn beta iota. rewrite Hc. reflexivity. }
  rewrite (bind_ok_eq _ _ _ _ _ EU).
  assert (EW : write_config_st (set_config s (registered_config (st_config s) d m)) =
               (Ok tt, set_fs (set_config s (registered_config (st_config s) d m)) f')).
  { unfold write_config_st, bind, get, on_fs. cbn beta iota.
    change (st_config (set_config s (registered_config (st_config s) d m)))
      with (registered_config (st_config s) d m).
    change (st_fs (set_config s (registered_config (st_config s) d m))) with (st_fs s).
    rewrite Hw. reflexivity. }
  rewrite (bind_ok_eq _ _ _ _ _ EW). reflexivity.
Qed.

Lemma handle_msg_main_accept : forall f m s v s2,
  f m (snd (chat_data_update m s)) = (Ok v, s2) -> py_is_False v = false ->
  handle_msg_main f m s =
  (Ok true, set_session (add_call s2 (ReplyText (chat_id m) "Accepted.")) (st_chat_data s2) true).
Proof.
  intros f m s v s2 Hf Hv. unfold handle_msg_main, bind.
  destruct (chat_data_update m s) as [r1 s1] eqn:E1.
  unfold chat_data_update in E1. inversion E1; subst. cbn [snd] in Hf.
  rewrite Hf, Hv. reflexivity.
Qed.

(** X16 ([register_client] of main.py): with a token and a dict registry,
    if the first message carrying the drawn password is [m] and the
    config write succeeds, registration returns after replying
    ["Invalid!"] to every earlier message and ["Accepted."] to [m]; the
    sender of [m] is then registered under its full name, the config is
    persisted, and the later messages are left unread. *)
Theorem register_client_main_accepts : forall s d pw pre m post f',
  py_truthy (token (st_config s)) = true ->
  client_ids (st_config s) = PDict d ->
  fst (gen_password s) = Ok pw ->
  st_inbox s = pre ++ m :: post ->
  forallb (fun m' => negb (String.eqb (text m') pw)) pre = true ->
  String.eqb (text m) pw = true ->
  write_config (registered_config (st_config s) d m) (st_fs s) = (Ok tt, f') ->
  exists s', register_client_main s = (Ok tt, s') /\
    st_config s' = registered_config (st_config s) d m /\
    st_fs s' = f' /\
    st_calls s' = st_calls s ++ map (fun m' => ReplyText (chat_id m') "Invalid!") pre
                  ++ [ReplyText (chat_id m) "Accepted."] /\
    st_inbox s' = post /\ persisted s'.
Proof.
  intros s d pw pre m post f' Ht Hc Hpw Hi Hpre Hm Hw.
  rewrite <- register_client_main_unfold.
  destruct (gen_password s) as [rg sg] eqn:Eg.
  pose proof (gen_password_eq s) as Eg'. rewrite Eg in Eg'. injection Eg' as _ Hsg.
  cbn [fst] in Hpw. subst rg sg.
  rewrite (bind_ok_eq _ _ _ _ _ Eg). cbn beta.
  set (s0 := set_rpos s (st_rpos s + 8)).
  rewrite (bind_ok_eq _ _ _ _ _ (get_message_main_run (handle_passwd pw) s0 Ht)). cbn beta.
  assert (Hf : forall m' s1, In m' pre -> handle_passwd pw m' s1 = (Ok (PBool false), s1)).
  { intros m' s1 Hin. rewrite forallb_forall in Hpre. specialize (Hpre m' Hin).
    unfold handle_passwd. apply negb_true_iff in Hpre. rewrite Hpre. reflexivity. }
  destruct (poll_reject_prefix (handle_passwd pw) pre (m :: post)
              (List.length (st_inbox (set_session s0 [] false))) (set_session s0 [] false)
              eq_refl Hi ltac:(change (st_inbox (set_session s0 [] false)) with (st_inbox s);
                               rewrite Hi, length_app; simpl; lia) Hf)
    as [s1 [E [Ei [Es [Ec [Ef Ecl]]]]]].
  assert (En : (List.length (st_inbox (set_session s0 [] false)) - List.length pre =
                S (List.length post))%nat).
  { change (st_inbox (set_session s0 [] false)) with (st_inbox s).
    rewrite Hi, length_app. simpl. lia. }
  rewrite En in E.
  destruct s1 as [c1 f1 cl1 u1 i1 cd1 sg1 r1 rp1 in1].
  cbn [st_inbox st_sigterm st_config st_fs st_calls set_session set_rpos s0] in Ei, Es, Ec, Ef, Ecl.
  subst i1 sg1 c1 f1 cl1.
  set (s1 := mk_state _ _ _ _ _ _ _ _ _ _) in E.
  set (s3 := snd (chat_data_update m (set_inbox s1 post))).
  assert (Ep : handle_passwd pw m s3 =
               (Ok (PBool true), set_fs (set_config s3 (registered_config (st_config s) d m)) f')).
  { exact (handle_passwd_accept_run pw m s3 d f' Hm Hc Hw). }
  set (s3' := set_fs (set_config s3 (registered_config (st_config s) d m)) f') in Ep.
  set (s4 := set_session (add_call s3' (ReplyText (chat_id m) "Accepted.")) (st_chat_data s3') true).
  assert (Epoll : poll (S (List.length post)) (handle_msg_main (handle_passwd pw)) s1 = (Ok tt, s4)).
  { cbn [poll]. change (st_inbox s1) with (m :: post).
    cbv iota. rewrite (handle_msg_main_accept _ m (set_inbox s1 post) _ _ Ep eq_refl). reflexivity. }
  assert (EL : listen_session (handle_msg_main (handle_passwd pw)) s0 = (Ok (st_chat_data s4), s4)).
  { unfold listen_session. cbv beta zeta. unfold bind at 1.
    rewrite E, Epoll. reflexivity. }
  exists s4. split.
  - rewrite (bind_ok_eq _ _ _ _ _ EL). reflexivity.
  - split; [reflexivity |]. split; [reflexivity |].
    split; [| split; [reflexivity |]].
    + cbn. rewrite <- app_assoc. reflexivity.
    + unfold persisted. exact (write_config_then_read _ _ _ Hw).
Qed.

(** ** Witnesses of the further properties *)

Lemma write_config_creates_parents_witness :
  exists f', write_config (st_config demo_state) [] = (Ok tt, f') /\
    open_read f' (filepath (st_config demo_state)) =
      Ok (pickle_dumps (config_dict (st_config demo_state))).
Proof.
  apply (write_config_creates_parents (st_config demo_state) []); vm_compute; reflexivity.
Defined.

Lemma write_config_frame_witness :
  fs_lookup (snd (write_config (st_config demo_state) [])) ["conf"%string] =
    fs_lookup [] ["conf"%string] \/
  (fs_lookup [] ["conf"%string] = None /\
   fs_lookup (snd (write_config (st_config demo_state) [])) ["conf"%string] = Some Dir).
Proof.
  apply (write_config_frame (st_config demo_state) [] (fst (write_config (st_config demo_state) []))
           (snd (write_config (st_config demo_state) [])) ["conf"%string]);
    vm_compute; reflexivity.
Defined.

Lemma config_load_pickled_dict_witness :
  config_load (demo_fs_with (File (pickle_dumps (PDict [(PStr "token", PStr "123:abc")]))))
    demo_path =
  Ok (mk_config demo_path (dict_get [(PStr "token", PStr "123:abc")] (PStr "token"))
        (dict_get [(PStr "token", PStr "123:abc")] (PStr "client_ids"))).
Proof.
  apply (config_load_pickled_dict
           (demo_fs_with (File (pickle_dumps (PDict [(PStr "token", PStr "123:abc")]))))
           demo_path [(PStr "token", PStr "123:abc")]); vm_compute; reflexivity.
Defined.

Lemma config_load_non_dict_witness :
  config_load (demo_fs_with (File (pickle_dumps (PStr "123:abc")))) demo_path =
  Err AttributeError.
Proof.
  apply (config_load_non_dict (demo_fs_with (File (pickle_dumps (PStr "123:abc")))) demo_path
           (PStr "123:abc")); vm_compute; reflexivity.
Defined.

Lemma set_bot_token_reload_witness :
  config_load (st_fs (snd (set_bot_token PNone demo_state))) (filepath (st_config demo_state)) =
  Ok (mk_config (filepath (st_config demo_state))
        (if py_truthy PNone then PNone else PStr (st_input demo_state))
        (client_ids (st_config demo_state))).
Proof.
  apply (set_bot_token_reload PNone demo_state (snd (set_bot_token PNone demo_state)));
    vm_compute; reflexivity.
Defined.

Lemma add_client_reload_witness :
  config_load (st_fs (snd (add_client_main [(PInt 5, PStr "Alice")] demo_state)))
    (filepath (st_config demo_state)) =
  Ok (mk_config (filepath (st_config demo_state)) (token (st_config demo_state))
        (PDict (dict_update [] [(PInt 5, PStr "Alice")]))).
Proof.
  apply (add_client_reload [(PInt 5, PStr "Alice")] demo_state
           (snd (add_client_main [(PInt 5, PStr "Alice")] demo_state)) []);
    vm_compute; reflexivity.
Defined.

Lemma send_message_broadcasts_registry_witness :
  exists s', send_message "hi" None None demo_state1 = (Ok tt, s') /\
    st_calls s' = st_calls demo_state1 ++
                  map (fun k => SendMessage k "hi" None true) (map fst [(PInt 5, PStr "Alice")]) /\
    st_config s' = st_config demo_state1 /\ st_fs s' = st_fs demo_state1.
Proof.
  apply (send_message_broadcasts_registry "hi" None None demo_state1 [(PInt 5, PStr "Alice")]);
    vm_compute; reflexivity.
Defined.

Lemma send_message_explicit_ids_witness :
  exists s', send_message "hi" (Some "HTML"%string) (Some [5; 6]) demo_state = (Ok tt, s') /\
    st_calls s' = st_calls demo_state ++
                  map (fun c => SendMessage (PInt c) "hi" (Some "HTML"%string) true) [5; 6] /\
    st_config s' = st_config demo_state /\ st_fs s' = st_fs demo_state.
Proof.
  apply (send_message_explicit_ids "hi" (Some "HTML"%string) demo_state 5 [6]);
    vm_compute; reflexivity.
Defined.

Lemma emit_broadcasts_record_witness :
  exists s', emit "WARNING:root:disk full" demo_state1 = (Ok tt, s') /\
    st_calls s' = st_calls demo_state1 ++
      map (fun k => SendMessage k "WARNING:root:disk full" None true)
        (map fst [(PInt 5, PStr "Alice")]).
Proof.
  apply (emit_broadcasts_record "WARNING:root:disk full" demo_state1 [(PInt 5, PStr "Alice")]);
    vm_compute; reflexivity.
Defined.

Lemma add_client_bot_empty_registry_witness :
  add_client_bot None demo_state =
  (Err (if py_truthy (token (st_config demo_state)) then NoClientIdsError else NoTokenError),
   set_rpos demo_state (st_rpos demo_state + 8)).
Proof.
  apply (add_client_bot_empty_registry None demo_state); vm_compute; reflexivity.
Defined.

Lemma bot_main_block_no_clients_witness :
  fst (bot_main_block (PStr "123:abc") (set_config demo_state (mk_config demo_path PNone (PDict [])))) =
  Err (if py_truthy (if py_truthy (PStr "123:abc") then PStr "123:abc"
                     else PStr (st_input demo_state))
       then NoClientIdsError else NoTokenError).
Proof.
  apply (bot_main_block_no_clients (PStr "123:abc")
           (set_config demo_state (mk_config demo_path PNone (PDict []))));
    vm_compute; reflexivity.
Defined.

Lemma bot_registration_adds_no_chat_witness :
  py_in (PInt 5) (client_ids (st_config demo_state3)) = Ok true.
Proof.
  apply (bot_registration_adds_no_chat None demo_state3
           (fst (add_client_bot None demo_state3)) (snd (add_client_bot None demo_state3)));
    vm_compute; reflexivity.
Defined.

Lemma main_session_all_rejected_witness :
  exists s', listen_session (handle_msg_main (fun m => @ret state _ (PBool false))) demo_state =
             (Pending, s') /\
    st_calls s' = st_calls demo_state ++
                  map (fun m => ReplyText (chat_id m) "Invalid!") (st_inbox demo_state) /\
    st_inbox s' = [] /\ st_config s' = st_config demo_state /\ st_fs s' = st_fs demo_state.
Proof.
  apply (main_session_all_rejected (fun _ => PBool false) demo_state); vm_compute; reflexivity.
Defined.

Lemma bot_session_ignores_unregistered_witness :
  listen_session (handle_msg_bot (fun m => @ret state _ (PBool true))) demo_state3 =
  (Pending, set_inbox (set_session demo_state3 [] false) []).
Proof.
  apply (bot_session_ignores_unregistered (fun m => @ret state _ (PBool true)) demo_state3);
    vm_compute; reflexivity.
Defined.

Lemma register_client_main_accepts_witness :
  exists s', register_client_main demo_state = (Ok tt, s') /\
    st_config s' = registered_config (st_config demo_state) [] (mk_message 11 "Bob" "30741852") /\
    st_fs s' = snd (write_config (registered_config (st_config demo_state) []
                                    (mk_message 11 "Bob" "30741852")) []) /\
    st_calls s' = st_calls demo_state ++
                  map (fun m' => ReplyText (chat_id m') "Invalid!") [mk_message 9 "Eve" "hello"]
                  ++ [ReplyText 11 "Accepted."] /\
    st_inbox s' = [mk_message 12 "Carol" "later"] /\ persisted s'.
Proof.
  apply (register_client_main_accepts demo_state [] "30741852"%string
           [mk_message 9 "Eve" "hello"] (mk_message 11 "Bob" "30741852")
           [mk_message 12 "Carol" "later"]
           (snd (write_config (registered_config (st_config demo_state) []
                                 (mk_message 11 "Bob" "30741852")) [])));
    vm_compute; reflexivity.
Defined.
